(** * dynamic-citations.js: citation expansion and parallel-citation resolution

    A shallow embedding of [src/dynamic-citations.js] (uslaw.link) and the
    properties of its expansion and resolution engine.

    JavaScript objects that the code uses as dictionaries (link tables, the
    congress-to-volume table, the set of identities already seen) are finite
    maps and sets; mutation of the shared citation object is explicit state
    passing; exceptions are an [outcome] type; the network, the file system and
    the parsing libraries are fields of a [World] record; the citation type
    registry ([./citation], outside this file) is a [Registry] record. *)

From Stdlib Require Import ZArith String Ascii DecimalString DecimalZ Lia Sorted.
From stdpp Require Import gmap strings list.

Open Scope string_scope.
Open Scope list_scope.
Open Scope Z_scope.

(** ** JavaScript primitives used by the module *)

Module JS.

(** [""+n] for an integer-valued Number. *)
Definition to_string (z : Z) : string := NilZero.string_of_int (Z.to_int z).

(** [""+x] where [x] may be [undefined]. *)
Definition to_string_opt (x : option Z) : string :=
  match x with Some z => to_string z | None => "undefined" end.

(** String concatenation with a possibly undefined string operand. *)
Definition str_or_undefined (x : option string) : string :=
  match x with Some s => s | None => "undefined" end.

Definition is_ws (c : ascii) : bool :=
  let n := nat_of_ascii c in
  ((9 <=? n)%nat && (n <=? 13)%nat) || (n =? 32)%nat.

Definition digit_of (c : ascii) : option Z :=
  let n := nat_of_ascii c in
  if ((48 <=? n)%nat && (n <=? 57)%nat) then Some (Z.of_nat (n - 48)) else None.

Definition hex_digit_of (c : ascii) : option Z :=
  let n := nat_of_ascii c in
  if ((48 <=? n)%nat && (n <=? 57)%nat) then Some (Z.of_nat (n - 48))
  else if ((65 <=? n)%nat && (n <=? 70)%nat) then Some (Z.of_nat (n - 55))
  else if ((97 <=? n)%nat && (n <=? 102)%nat) then Some (Z.of_nat (n - 87))
  else None.

Fixpoint skip_ws (s : string) : string :=
  match s with
  | String c s' => if is_ws c then skip_ws s' else s
  | EmptyString => s
  end.

Definition all_ws (s : string) : bool :=
  match skip_ws s with EmptyString => true | _ => false end.

(** The optional sign of a numeric literal and the text after it. *)
Definition split_sign (s : string) : Z * string :=
  match s with
  | String c s' =>
      if Ascii.eqb c "-" then (-1, s')
      else if Ascii.eqb c "+" then (1, s')
      else (1, s)
  | EmptyString => (1, s)
  end.

(** Value of the longest run of leading digits in base [radix], and the rest
    of the text. *)
Fixpoint digits_acc (digit : ascii -> option Z) (radix : Z) (s : string) (acc : Z)
  : Z * string :=
  match s with
  | String c s' =>
      match digit c with
      | Some d => digits_acc digit radix s' (radix * acc + d)
      | None => (acc, s)
      end
  | EmptyString => (acc, s)
  end.

Definition starts_with (digit : ascii -> option Z) (s : string) : bool :=
  match s with
  | String c _ => match digit c with Some _ => true | None => false end
  | EmptyString => false
  end.

(** [parseInt(s)] with no radix argument: leading white space, a sign, a
    ["0x"] prefix selecting base 16, then the longest run of digits; [None]
    is NaN. *)
Definition parseInt (s : string) : option Z :=
  let '(sg, r) := split_sign (skip_ws s) in
  let decimal :=
    if starts_with digit_of r
    then Some (sg * fst (digits_acc digit_of 10 r 0))
    else None in
  match r with
  | String z (String x r') =>
      if (Ascii.eqb z "0" && (Ascii.eqb x "x" || Ascii.eqb x "X"))%bool then
        if starts_with hex_digit_of r'
        then Some (sg * fst (digits_acc hex_digit_of 16 r' 0))
        else None
      else decimal
  | _ => decimal
  end.

(** Texts made of decimal digits only. *)
Fixpoint digits_only (s : string) : Prop :=
  match s with
  | String c s' => is_Some (digit_of c) /\ digits_only s'
  | EmptyString => True
  end.

(** [parseInt(x)] where [x] may be [undefined] (["undefined"] has no digits). *)
Definition parseInt_opt (x : option string) : option Z :=
  match x with Some s => parseInt s | None => None end.

(** ToNumber on a string, for the integer literals: surrounding white space,
    the empty string (0), and an optionally signed run of decimal digits.
    Every other text is NaN here ([None]); fractions, exponents and the
    [0x]/[0o]/[0b] literals are outside the integers this model carries. *)
Definition to_number (s : string) : option Z :=
  match skip_ws s with
  | EmptyString => Some 0
  | t =>
      let '(sg, r) := split_sign t in
      if starts_with digit_of r then
        let '(v, rest) := digits_acc digit_of 10 r 0 in
        if all_ws rest then Some (sg * v) else None
      else None
  end.

(** A primitive value held in a numeric field of a citation: the citation
    parser stores the matched text, resolvers store numbers (possibly NaN)
    or nothing. *)
Inductive value :=
  | Num (n : Z)
  | NaN
  | Str (s : string)
  | Undefined.

Definition value_of_opt (x : option Z) : value :=
  match x with Some n => Num n | None => Undefined end.

(** Result of [parseInt] as a value. *)
Definition value_of_parse (x : option Z) : value :=
  match x with Some n => Num n | None => NaN end.

(** ToNumber; [None] is NaN. *)
Definition value_to_number (v : value) : option Z :=
  match v with
  | Num n => Some n
  | NaN => None
  | Str s => to_number s
  | Undefined => None
  end.

(** ToString. *)
Definition value_to_string (v : value) : string :=
  match v with
  | Num n => to_string n
  | NaN => "NaN"
  | Str s => s
  | Undefined => "undefined"
  end.

(** [s == v] for a string [s]: text equality against a string, numeric
    equality against a number, never equal to NaN or [undefined]. *)
Definition str_loose_eq (s : string) (v : value) : bool :=
  match v with
  | Str t => bool_decide (s = t)
  | Num n => bool_decide (to_number s = Some n)
  | NaN => false
  | Undefined => false
  end.

(** [v <= n], [v >= n], [v < n] against numbers; any comparison with NaN is
    false. *)
Definition num_le (a b : option Z) : bool :=
  match a, b with Some x, Some y => x <=? y | _, _ => false end.
Definition num_lt (a b : option Z) : bool :=
  match a, b with Some x, Some y => x <? y | _, _ => false end.
Definition num_ge (a b : option Z) : bool := num_le b a.

(** Truthiness of a possibly undefined number and string. *)
Definition truthy_num (x : option Z) : bool :=
  match x with Some n => negb (n =? 0) | None => false end.
Definition truthy_str (x : option string) : bool :=
  match x with Some s => negb (bool_decide (s = "")) | None => false end.

(** [a || b] on possibly undefined strings. *)
Definition or_str (a b : option string) : option string :=
  if truthy_str a then a else b.

(** [s.toLowerCase()] on ASCII text. *)
Definition lower (c : ascii) : ascii :=
  let n := nat_of_ascii c in
  if ((65 <=? n)%nat && (n <=? 90)%nat) then ascii_of_nat (n + 32) else c.

Fixpoint toLowerCase (s : string) : string :=
  match s with
  | String c s' => String (lower c) (toLowerCase s')
  | EmptyString => EmptyString
  end.

(** [new Array(k + 1).join(z)]: [k] copies of [z]. *)
Fixpoint repeat_str (k : nat) (z : string) : string :=
  match k with
  | O => ""
  | S k' => z +:+ repeat_str k' z
  end.

(** Names every object inherits from [Object.prototype]; [k in {}] holds for
    them although they are not own properties. *)
Definition prototype_names : list string :=
  [ "constructor"; "toString"; "toLocaleString"; "valueOf"; "hasOwnProperty";
    "isPrototypeOf"; "propertyIsEnumerable"; "__proto__"; "__defineGetter__";
    "__defineSetter__"; "__lookupGetter__"; "__lookupSetter__" ].

(** [k in o] for an object literal [o] used as a set of keys. *)
Definition key_in (k : string) (own : gset string) : bool :=
  bool_decide (k ∈ own) || bool_decide (k ∈ prototype_names).

End JS.

(** ** Data model *)

(** A link descriptor and its source, as the link tables of a citation hold
    them. *)
Record source_info := {
  name : string;
  abbreviation : string;
  link : string;
  authoritative : bool;
  note : option string
}.

Record link_desc := {
  source : source_info;
  landing : option string;
  pdf : option string;
  mods : option string;
  html : option string
}.

(** The sub-citation objects, one module per citation family. Numeric fields
    are [JS.value]s: the parser leaves the matched text there. *)
Module Stat.
Record t := {
  volume : JS.value;
  page : JS.value;
  id : option string;
  links : gmap string link_desc
}.
End Stat.

Module Law.
Record t := {
  congress : JS.value;
  type : string;
  number : JS.value;
  id : option string;
  links : gmap string link_desc
}.
End Law.

Module Usc.
(** [links] can be deleted by the section-existence check. *)
Record t := { links : option (gmap string link_desc) }.
End Usc.

Module Cfr.
Record t := { links : gmap string link_desc }.
End Cfr.

Module Fedreg.
Record t := { links : gmap string link_desc }.
End Fedreg.

Module Reporter.
Record t := { links : gmap string link_desc }.
End Reporter.

Module Bill.
Record t := {
  is_enacted : bool;
  congress : JS.value;
  bill_type : string;
  number : JS.value;
  title : option string;
  id : option string;
  links : gmap string link_desc
}.
End Bill.

(** A citation object. [disambiguation] distinguishes a missing property
    ([None]) from a property holding [undefined] ([Some None]). *)
#[warnings="-register-all"]
Inductive Citation := mkCitation {
  type : string;
  type_name : option string;
  citation : option string;
  title : option string;
  disambiguation : option (option string);
  stat : option Stat.t;
  law : option Law.t;
  usc : option Usc.t;
  cfr : option Cfr.t;
  fedreg : option Fedreg.t;
  reporter : option Reporter.t;
  us_bill : option Bill.t;
  parallel_citations : option (list Citation)
}.

(** Property assignments on a citation object. *)
Definition set_title (v : option string) (c : Citation) : Citation :=
  mkCitation (type c) (type_name c) (citation c) v (disambiguation c) (stat c)
    (law c) (usc c) (cfr c) (fedreg c) (reporter c) (us_bill c)
    (parallel_citations c).

Definition set_type_name (v : option string) (c : Citation) : Citation :=
  mkCitation (type c) v (citation c) (title c) (disambiguation c) (stat c)
    (law c) (usc c) (cfr c) (fedreg c) (reporter c) (us_bill c)
    (parallel_citations c).

Definition set_citation (v : option string) (c : Citation) : Citation :=
  mkCitation (type c) (type_name c) v (title c) (disambiguation c) (stat c)
    (law c) (usc c) (cfr c) (fedreg c) (reporter c) (us_bill c)
    (parallel_citations c).

Definition set_disambiguation (v : option string) (c : Citation) : Citation :=
  mkCitation (type c) (type_name c) (citation c) (title c) (Some v) (stat c)
    (law c) (usc c) (cfr c) (fedreg c) (reporter c) (us_bill c)
    (parallel_citations c).

Definition set_stat (v : option Stat.t) (c : Citation) : Citation :=
  mkCitation (type c) (type_name c) (citation c) (title c) (disambiguation c) v
    (law c) (usc c) (cfr c) (fedreg c) (reporter c) (us_bill c)
    (parallel_citations c).

Definition set_law (v : option Law.t) (c : Citation) : Citation :=
  mkCitation (type c) (type_name c) (citation c) (title c) (disambiguation c)
    (stat c) v (usc c) (cfr c) (fedreg c) (reporter c) (us_bill c)
    (parallel_citations c).

Definition set_usc (v : option Usc.t) (c : Citation) : Citation :=
  mkCitation (type c) (type_name c) (citation c) (title c) (disambiguation c)
    (stat c) (law c) v (cfr c) (fedreg c) (reporter c) (us_bill c)
    (parallel_citations c).

Definition set_reporter (v : option Reporter.t) (c : Citation) : Citation :=
  mkCitation (type c) (type_name c) (citation c) (title c) (disambiguation c)
    (stat c) (law c) (usc c) (cfr c) (fedreg c) v (us_bill c)
    (parallel_citations c).

Definition set_parallel_citations (v : list Citation) (c : Citation) : Citation :=
  mkCitation (type c) (type_name c) (citation c) (title c) (disambiguation c)
    (stat c) (law c) (usc c) (cfr c) (fedreg c) (reporter c) (us_bill c)
    (Some v).

(** One row of a per-volume ledger file. *)
Module Item.
Record t := {
  volume : Z;
  page : Z;
  npages : option Z;
  type : option string;
  congress : option Z;
  number : option Z;
  title : option string;
  topic : option string;
  file : option string;
  citation : option string
}.
End Item.

(** The object literal handed to [create_parallel_cite], by citation type. *)
Inductive payload :=
  | StatFields (volume page : JS.value)
  | LawFields (congress : JS.value) (type : string) (number : JS.value)
  | BillFields (is_enacted : bool) (congress : JS.value) (bill_type : string)
      (number : JS.value) (title : option string).

(** The citation type registry, [require('./citation')]: one citator per type
    name ([Citation.types[type]]) and the link templates. [canonical] is
    optional on a citator. [getLinksForCitation] receives the object with its
    [id] already set. *)
Record citator := {
  citator_name : string;
  canonical : option (payload -> string);
  citator_id : payload -> string
}.

Record Registry := {
  types : string -> citator;
  getLinksForCitation : string -> payload -> string -> gmap string link_desc
}.

(** Exceptions. *)
Inductive outcome (A : Type) :=
  | Returned (a : A)
  | Thrown (e : string).
Arguments Returned {A} a.
Arguments Thrown {A} e.

(** The environment record given by the caller. *)
Record credentials := { username : option string; password : option string }.
Record Env := { courtlistener : option credentials }.

(** What [request.get] hands to its callback. *)
Record response_t := {
  statusCode : Z;
  href : string   (* response.request.uri.href, the address after redirects *)
}.

Record reply := {
  error : bool;
  response : option response_t;
  body : option string
}.

Record request_opts := {
  uri : string;
  followRedirect : bool;
  auth : option credentials
}.

(** Parsed forms of the external documents. *)
Module Mods.
(** Attributes ([$]) of a [law] and of a [bill] element; each attribute may
    be missing. *)
Record law_attrs := {
  law_congress : option string;
  isPrivate : option string;
  law_number : option string
}.
Record bill_attrs := {
  priority : option string;
  bill_congress : option string;
  bill_type : option string;
  bill_number : option string
}.
(** A title element is a plain string, or an object whose text is [_]. *)
Inductive title_elem :=
  | Text (s : string)
  | Element (text : option string).
(** A child list is empty exactly when the property is absent. An element
    of [law] or [bill] is its [$]: [None] for an element written without
    attributes, whose [$] is undefined. *)
Record extension := {
  law : list (option law_attrs);
  bill : list (option bill_attrs);
  shortTitle : list title_elem;
  searchTitle : list string
}.
Record mods_t := { extensions : option (list extension) }.
Record result := { mods : option mods_t }.
End Mods.

Record bill_json := {
  bj_title_without_number : option string;
  bj_congress : JS.value;
  bj_number : JS.value;
  bj_title : option string
}.

(** One result of a case search; [case_citation] is its [citation] array,
    which a result may lack. *)
Record case_json := {
  caseName : option string;
  court : option string;
  case_citation : option (list string);
  absolute_url : option string
}.

Record search_json := { results : option (list case_json) }.

(** The network, the file system and the parsing libraries. A parser that
    throws or reports an error, or a file that cannot be read, gives [None]. *)
Record World := {
  request_get : request_opts -> reply;
  readFileSync : string -> option string;
  yaml_safeLoad : string -> option (list Item.t);
  parseString : string -> option Mods.result;
  JSON_parse_bill : string -> option bill_json;
  JSON_parse_search : string -> option search_json;
  url_parse_query : string -> option string
}.

(** ** The module's functions *)

Section Engine.

Variable Reg : Registry.
Variable W : World.

(** The type name that goes with each payload shape at the call sites of
    [create_parallel_cite]. *)
Definition payload_type (p : payload) : string :=
  match p with
  | StatFields _ _ => "stat"
  | LawFields _ _ _ => "law"
  | BillFields _ _ _ _ _ => "us_bill"
  end.

(** [citeobj.title]. *)
Definition payload_title (p : payload) : option string :=
  match p with
  | BillFields _ _ _ _ t => t
  | _ => None
  end.

(** [create_parallel_cite(type, citeobj)]. At each call site [type] is the
    name that goes with the shape of [citeobj], so the payload stands for
    both arguments. [canonical] is applied before [id] and [links] are stored
    in the object. *)
Definition create_parallel_cite (citeobj : payload) : Citation :=
  let type := payload_type citeobj in
  let citator := types Reg type in
  let id := citator_id citator citeobj in
  let links := getLinksForCitation Reg type citeobj id in
  {| type := type;
     type_name := Some (citator_name citator);
     citation :=
       match canonical citator with
       | Some f => Some (f citeobj)
       | None => None
       end;
     title := payload_title citeobj;
     disambiguation := None;
     stat :=
       match citeobj with
       | StatFields v p => Some (Stat.Build_t v p (Some id) links)
       | _ => None
       end;
     law :=
       match citeobj with
       | LawFields c t n => Some (Law.Build_t c t n (Some id) links)
       | _ => None
       end;
     usc := None; cfr := None; fedreg := None; reporter := None;
     us_bill :=
       match citeobj with
       | BillFields e c t n ti => Some (Bill.Build_t e c t n ti (Some id) links)
       | _ => None
       end;
     parallel_citations := None |}.

(** [c.law.id] and [c.us_bill.id] used as property keys. *)
Definition law_id (c : Citation) : string :=
  match law c with
  | Some l => JS.str_or_undefined (Law.id l)
  | None => "undefined"
  end.

Definition us_bill_id (c : Citation) : string :=
  match us_bill c with
  | Some b => JS.str_or_undefined (Bill.id b)
  | None => "undefined"
  end.

(** *** get_from_usgpo_mods *)

(** The variables the [forEach] callback closes over, and the exception, if
    any, that has left the [forEach]: once [thrown] is set nothing more runs
    and the resolver never calls back. *)
Record mods_state := {
  ms_cite : Citation;
  cites : list Citation;
  seen_cites : gset string;
  thrown : option string
}.

(** Whether the callback has returned or goes on to its next statement. An
    exception leaves the callback like a [return], with [thrown] set. *)
Inductive flow :=
  | Next (st : mods_state)
  | Return (st : mods_state).

Definition raise (e : string) (st : mods_state) : mods_state :=
  {| ms_cite := ms_cite st;
     cites := cites st;
     seen_cites := seen_cites st;
     thrown := Some e |}.

Definition law_fields (elem : Mods.law_attrs) : payload :=
  LawFields
    (JS.value_of_parse (JS.parseInt_opt (Mods.law_congress elem)))
    (if bool_decide (Mods.isPrivate elem = Some "true") then "private" else "public")
    (JS.value_of_parse (JS.parseInt_opt (Mods.law_number elem))).

(** [bill_type] is [elem.type], which must be there for [toLowerCase]. *)
Definition bill_fields (elem : Mods.bill_attrs) (bill_type : string) : payload :=
  BillFields true
    (JS.value_of_parse (JS.parseInt_opt (Mods.bill_congress elem)))
    (JS.toLowerCase bill_type)
    (JS.value_of_parse (JS.parseInt_opt (Mods.bill_number elem)))
    None.

Definition record_cite (key : string) (c : Citation) (st : mods_state) : mods_state :=
  {| ms_cite := ms_cite st;
     cites := (cites st ++ [c])%list;
     seen_cites := {[ key ]} ∪ seen_cites st;
     thrown := thrown st |}.

(** The statements on [extension.law]. [extension.law[0].$] is undefined for
    an element without attributes, and reading [elem.congress] then throws a
    TypeError. *)
Definition extension_law (extension : Mods.extension) (st : mods_state) : flow :=
  match thrown st with
  | Some _ => Return st
  | None =>
      match Mods.law extension with
      | Some elem :: _ =>
          let c := create_parallel_cite (law_fields elem) in
          if JS.key_in (law_id c) (seen_cites st) then Return st
          else Next (record_cite (law_id c) c st)
      | None :: _ => Return (raise "TypeError" st)
      | [] => Next st
      end
  end.

(** The statements on [extension.bill]. Reading [elem.priority] throws when
    [$] is undefined, and [elem.type.toLowerCase()] throws when a primary
    bill has no [type]. *)
Definition extension_bill (extension : Mods.extension) (st : mods_state) : flow :=
  match thrown st with
  | Some _ => Return st
  | None =>
      match Mods.bill extension with
      | Some elem :: _ =>
          if bool_decide (Mods.priority elem = Some "primary") then
            match Mods.bill_type elem with
            | Some bill_type =>
                let c := create_parallel_cite (bill_fields elem bill_type) in
                if JS.key_in (us_bill_id c) (seen_cites st) then Return st
                else Next (record_cite (us_bill_id c) c st)
            | None => Return (raise "TypeError" st)
            end
          else Next st
      | None :: _ => Return (raise "TypeError" st)
      | [] => Next st
      end
  end.

Definition extension_title (extension : Mods.extension) (st : mods_state) : mods_state :=
  let assign v :=
    {| ms_cite := set_title v (ms_cite st);
       cites := cites st;
       seen_cites := seen_cites st;
       thrown := thrown st |} in
  match thrown st with
  | Some _ => st
  | None =>
      match Mods.shortTitle extension with
      | elem :: _ =>
          match elem with
          | Mods.Text s => assign (Some s)
          | Mods.Element (Some s) => assign (Some s)
          | Mods.Element None => st
          end
      | [] =>
          match Mods.searchTitle extension with
          | elem :: _ => assign (Some elem)
          | [] => st
          end
      end
  end.

(** The body of [result.mods.extension.forEach]. *)
Definition process_extension (st : mods_state) (extension : Mods.extension)
  : mods_state :=
  let refs :=
    if bool_decide (type (ms_cite st) = "stat") || bool_decide (type (ms_cite st) = "law")
    then
      match extension_law extension st with
      | Return st' => Return st'
      | Next st' => extension_bill extension st'
      end
    else Next st in
  match refs with
  | Return st' => st'
  | Next st' => extension_title extension st'
  end.

Definition mods_extensions (result : option Mods.result) : list Mods.extension :=
  match result with
  | Some r =>
      match Mods.mods r with
      | Some m =>
          match Mods.extensions m with
          | Some exts => exts
          | None => []
          end
      | None => []
      end
  | None => []
  end.

Definition scan_mods (cite : Citation) (exts : list Mods.extension) : mods_state :=
  fold_left process_extension exts
    {| ms_cite := cite; cites := []; seen_cites := ∅; thrown := None |}.

(** [xml2js.parseString(body, ...)]: for a body that is not there it reports
    an error and [result] is undefined. *)
Definition parse_body (body : option string) : option Mods.result :=
  match body with
  | Some text => parseString W text
  | None => None
  end.

(** The extension blocks the resolver goes through. [request.get] with an
    undefined address makes no request and calls back with an error and no
    body. *)
Definition fetch_extensions (mods_url : option string) : list Mods.extension :=
  match mods_url with
  | Some mods_url =>
      mods_extensions
        (parse_body
           (body (request_get W
                    {| uri := mods_url; followRedirect := true; auth := None |})))
  | None => []
  end.

(** An exception in the [forEach] callback escapes the parse callback:
    [callback(cites)] is never reached. *)
Definition get_from_usgpo_mods (cite : Citation) (mods_url : option string)
  : outcome (Citation * list Citation) :=
  let st := scan_mods cite (fetch_extensions mods_url) in
  match thrown st with
  | Some e => Thrown e
  | None => Returned (ms_cite st, cites st)
  end.

(** *** get_from_govtrack_search *)

(** Prefix match of a pattern in which [.] stands for any character other
    than a line terminator; gives the text after the prefix. *)
Fixpoint match_prefix (pat s : string) : option string :=
  match pat with
  | EmptyString => Some s
  | String p pat' =>
      match s with
      | String c s' =>
          if Ascii.eqb p "."
          then if (Ascii.eqb c "010" || Ascii.eqb c "013")%bool then None
               else match_prefix pat' s'
          else if Ascii.eqb p c then match_prefix pat' s' else None
      | EmptyString => None
      end
  end.

(** The longest run of leading characters satisfying [f], and the rest. *)
Fixpoint span_while (f : ascii -> bool) (s : string) : string * string :=
  match s with
  | String c s' =>
      if f c then let '(a, b) := span_while f s' in (String c a, b)
      else ("", s)
  | EmptyString => ("", "")
  end.

Definition is_digit (c : ascii) : bool :=
  match JS.digit_of c with Some _ => true | None => false end.

Definition is_lower_letter (c : ascii) : bool :=
  let n := nat_of_ascii c in ((97 <=? n)%nat && (n <=? 122)%nat).

(** [m[2]] of
    [/^https:\/\/www.govtrack.us\/congress\/bills\/(\d+)\/([a-z]+)(\d+)$/]. *)
Definition bill_url_match (url : string) : option string :=
  match match_prefix "https://www.govtrack.us/congress/bills/" url with
  | None => None
  | Some r1 =>
      let '(m1, r2) := span_while is_digit r1 in
      match m1, r2 with
      | String _ _, String slash r3 =>
          if Ascii.eqb slash "/" then
            let '(m2, r4) := span_while is_lower_letter r3 in
            let '(m3, r5) := span_while is_digit r4 in
            match m2, m3, r5 with
            | String _ _, String _ _, EmptyString => Some m2
            | _, _, _ => None
            end
          else None
      | _, _ => None
      end
  end.

(** The first callback reads [response.request.uri.href] unguarded, also
    when the address is undefined and [request.get] calls back with an error;
    the second runs inside [try]/[catch], and [JSON.parse] is its first
    statement, so a body that is missing or does not parse leaves everything
    as it was. *)
Definition get_from_govtrack_search (cite : Citation) (govtrack_link : link_desc)
    (is_enacted : bool) : outcome (Citation * list Citation) :=
  match landing govtrack_link with
  | None => Thrown "TypeError"
  | Some url =>
  let r := request_get W {| uri := url; followRedirect := true; auth := None |} in
  match response r with
  | None => Thrown "TypeError"
  | Some resp =>
      let url := href resp in
      match bill_url_match url with
      | None => Returned (cite, [])
      | Some bill_type =>
          let r2 := request_get W
            {| uri := url +:+ ".json"; followRedirect := true; auth := None |} in
          match body r2 with
          | None => Returned (cite, [])
          | Some text =>
              match JSON_parse_bill W text with
              | None => Returned (cite, [])
              | Some bill =>
                  let cite1 := set_title (bj_title_without_number bill) cite in
                  let cites :=
                    [ create_parallel_cite
                        (BillFields is_enacted
                           (JS.value_of_parse
                              (JS.parseInt (JS.value_to_string (bj_congress bill))))
                           bill_type
                           (JS.value_of_parse
                              (JS.parseInt (JS.value_to_string (bj_number bill))))
                           (bj_title bill)) ] in
                  match law cite1 with
                  | Some l =>
                      Returned
                        (set_law
                           (Some (Law.Build_t (Law.congress l) (Law.type l)
                                    (Law.number l) (Law.id l)
                                    (delete "govtrack" (Law.links l))))
                           cite1,
                         cites)
                  | None => Returned (cite1, cites)
                  end
              end
          end
      end
  end
  end.

(** *** get_from_legisworks *)

Definition pad (n : JS.value) (width : nat) (z : option string) : string :=
  let z := match JS.or_str z (Some "0") with Some t => t | None => "0" end in
  let n := JS.value_to_string n in
  if (width <=? String.length n)%nat then n
  else JS.repeat_str (width - String.length n) z +:+ n.

Definition ledger_path (volume : JS.value) : string :=
  "legisworks-historical-statutes/data/" +:+ pad volume 3 None +:+ ".yaml".

(** [yaml.safeLoad(fs.readFileSync(path))]; [None] when either throws. *)
Definition load_ledger (volume : JS.value) : option (list Item.t) :=
  match readFileSync W (ledger_path volume) with
  | Some text => yaml_safeLoad W text
  | None => None
  end.

(** [(""+item.page) == cite.stat.page]. *)
Definition is_start_page (stat : Stat.t) (item : Item.t) : bool :=
  JS.str_loose_eq (JS.to_string (Item.page item)) (Stat.page stat).

(** The second disjunct of the page test: [item.npages && ... && ...]. *)
Definition spans_page (stat : Stat.t) (item : Item.t) : bool :=
  match Item.npages item with
  | Some npages =>
      JS.truthy_num (Some npages)
      && JS.num_ge (JS.parseInt (JS.value_to_string (Stat.page stat)))
           (Some (Item.page item))
      && JS.num_lt (JS.parseInt (JS.value_to_string (Stat.page stat)))
           (Some (Item.page item + npages))
  | None => false
  end.

(** Whether the first [forEach] pushes [item] onto [matches]. *)
Definition selected (stat : Stat.t) (item : Item.t) : bool :=
  if negb (JS.str_loose_eq (JS.to_string (Item.volume item)) (Stat.volume stat))
  then false
  else if negb (is_start_page stat item || spans_page stat item)
  then false
  else true.

Definition legisworks_link (item : Item.t) (note : option string) : link_desc :=
  {| source :=
       {| name := "Legisworks";
          abbreviation := "Legisworks";
          link := "https://github.com/unitedstates/legisworks-historical-statutes";
          authoritative := false;
          note := note |};
     landing := None;
     pdf := Some ("https://govtrackus.s3.amazonaws.com/legislink/pdf/stat/"
                  +:+ JS.to_string (Item.volume item) +:+ "/"
                  +:+ JS.str_or_undefined (Item.file item));
     mods := None;
     html := None |}.

Definition internal_page_note (item : Item.t) : string :=
  "Link is to an internal page within a statute beginning on page "
  +:+ JS.to_string (Item.page item) +:+ ".".

Definition add_stat_link (key : string) (l : link_desc) (c : Citation) : Citation :=
  match stat c with
  | Some s =>
      set_stat
        (Some (Stat.Build_t (Stat.volume s) (Stat.page s) (Stat.id s)
                 (<[key := l]> (Stat.links s))))
        c
  | None => c
  end.

(** The parallel public-law citation of a ledger row. *)
Definition publaw_parallel (item : Item.t) : Citation :=
  let cc := create_parallel_cite
    (LawFields (JS.value_of_opt (Item.congress item)) "public"
       (JS.value_of_opt (Item.number item))) in
  set_title (JS.or_str (Item.title item) (Item.topic item)) cc.

(** The callback of [matches.map]; [nmatches] is [matches.length]. *)
Definition candidate (stat : Stat.t) (nmatches : nat) (item : Item.t) : Citation :=
  let c := create_parallel_cite (StatFields (Stat.volume stat) (Stat.page stat)) in
  let c := set_title (JS.or_str (Item.title item) (Item.topic item)) c in
  let c := set_citation
    (Some (JS.to_string (Item.volume item) +:+ " Stat. "
           +:+ JS.to_string (Item.page item))) c in
  let c := if (1 <? nmatches)%nat
           then set_disambiguation (Item.citation item) c else c in
  let c := add_stat_link "legisworks"
    (legisworks_link item
       (if is_start_page stat item then None else Some (internal_page_note item)))
    c in
  if JS.num_ge (Item.congress item) (Some 38)
     && bool_decide (Item.type item = Some "publaw")
  then set_parallel_citations [publaw_parallel item] c
  else c.

Definition get_from_legisworks (stat : Stat.t) : outcome (list Citation) :=
  match load_ledger (Stat.volume stat) with
  | None => Thrown "Error"
  | Some body =>
      let matches := filter (fun item => selected stat item = true) body in
      Returned (rev (map (candidate stat (length matches)) matches))
  end.

Definition explode (cite : Citation) (env : Env) : outcome (list Citation) :=
  match stat cite with
  | Some s =>
      if JS.num_le (JS.value_to_number (Stat.volume s)) (Some 64)
      then get_from_legisworks s
      else Returned [cite]
  | None => Returned [cite]
  end.

(** *** get_from_legisworks_publaw *)

(** An object literal: the properties are defined in textual order, so a key
    written twice keeps its last value. Numeric keys are property names. *)
Definition object_literal {V : Type} (props : list (Z * V)) : gmap string V :=
  fold_left (fun o kv => <[JS.to_string kv.1 := kv.2]> o) props ∅.

Definition volume_map_props : list (Z * list Z) :=
  [ (60, [35]); (61, [36]); (62, [37]); (63, [38]); (64, [39]); (65, [40]);
    (66, [41]); (67, [42]); (68, [43]); (69, [44]);
    (70, [45]); (71, [46]); (72, [47]); (73, [48]); (74, [49]); (75, [50]);
    (75, [51; 52]); (76, [53; 54]); (77, [55; 56]);
    (78, [57; 58]); (79, [59; 60]); (80, [61; 62]); (81, [63; 64]) ].

Definition volume_map : gmap string (list Z) := object_literal volume_map_props.

(** The four guards at the head of the inner [forEach] callback. *)
Definition publaw_selected (l : Law.t) (item : Item.t) : bool :=
  if negb (JS.str_loose_eq (JS.to_string_opt (Item.congress item)) (Law.congress l))
  then false
  else if negb (JS.str_loose_eq (JS.to_string_opt (Item.number item)) (Law.number l))
  then false
  else if bool_decide (Law.type l = "public")
          && negb (bool_decide (Item.type item = Some "publaw"))
  then false
  else if bool_decide (Law.type l = "private")
  then false
  else true.

Definition add_law_link (key : string) (l : link_desc) (c : Citation) : Citation :=
  match law c with
  | Some lw =>
      set_law
        (Some (Law.Build_t (Law.congress lw) (Law.type lw) (Law.number lw)
                 (Law.id lw) (<[key := l]> (Law.links lw))))
        c
  | None => c
  end.

(** The inner [forEach] callback on the pair [(cite, parallel_cites)]. *)
Definition publaw_item (l : Law.t) (st : Citation * list Citation) (item : Item.t)
  : Citation * list Citation :=
  if publaw_selected l item then
    let cite := set_title (JS.or_str (Item.title item) (Item.topic item)) st.1 in
    let cite := add_law_link "legisworks" (legisworks_link item None) cite in
    (cite,
     (st.2 ++ [ create_parallel_cite
                  (StatFields (JS.Num (Item.volume item)) (JS.Num (Item.page item))) ])%list)
  else st.

(** The outer [forEach] over the volumes of the congress. *)
Fixpoint publaw_volumes (l : Law.t) (volumes : list Z) (st : Citation * list Citation)
  : outcome (Citation * list Citation) :=
  match volumes with
  | [] => Returned st
  | volume :: rest =>
      match load_ledger (JS.Num volume) with
      | None => Thrown "Error"
      | Some body => publaw_volumes l rest (fold_left (publaw_item l) body st)
      end
  end.

Definition get_from_legisworks_publaw (cite : Citation)
  : outcome (Citation * list Citation) :=
  match law cite with
  | None => Thrown "TypeError"
  | Some l =>
      let key := JS.value_to_string (Law.congress l) in
      match volume_map !! key with
      | Some volumes => publaw_volumes l volumes (cite, [])
      | None =>
          if bool_decide (key ∈ JS.prototype_names)
          then Thrown "TypeError"
          else Returned (cite, [])
      end
  end.

(** *** get_from_courtlistener_search *)

Definition str_or_null (x : option string) : string :=
  match x with Some s => s | None => "null" end.

Definition courtlistener_link (c : case_json) : link_desc :=
  {| source :=
       {| name := "Court Listener";
          abbreviation := "CL";
          link := "https://www.courtlistener.com";
          authoritative := false;
          note := None |};
     landing := Some ("https://www.courtlistener.com"
                      +:+ JS.str_or_undefined (absolute_url c));
     pdf := None;
     mods := None;
     html := None |}.

(** The assignments made when the search has a single result, in their
    order. Without a [citation] array, [cases[0].citation[0]] throws after
    [title] and [type_name] have been assigned; the [catch] swallows the
    exception and the two assignments stay. *)
Definition adopt_case (c : case_json) (rep : Reporter.t) (cite : Citation) : Citation :=
  let cite := set_title (caseName c) cite in
  let cite := set_type_name (court c) cite in
  match case_citation c with
  | Some citations =>
      let cite := set_citation (head citations) cite in
      set_reporter
        (Some (Reporter.Build_t
                 (<["courtlistener" := courtlistener_link c]> (Reporter.links rep))))
        cite
  | None => cite
  end.

(** The [try] block up to the test of [cases.length == 1]; [None] when it
    throws. *)
Definition search_cases (r : reply) : option (list case_json) :=
  if error r || negb (JS.truthy_str (body r)) then None
  else
    match body r with
    | Some text =>
        match JSON_parse_search W text with
        | Some parsed =>
            match results parsed with
            | Some [] => None
            | Some cases => Some cases
            | None => None
            end
        | None => None
        end
    | None => None
    end.

Definition get_from_courtlistener_search (cite : Citation) (env : Env)
  : outcome (Citation * list Citation) :=
  match reporter cite with
  | None => Thrown "TypeError"
  | Some rep =>
      match Reporter.links rep !! "courtlistener", courtlistener env with
      | Some link, Some cred =>
          match landing link with
          | None => Thrown "TypeError"
          | Some l =>
              let r := request_get W
                {| uri := "https://www.courtlistener.com/api/rest/v3/search/?"
                          +:+ str_or_null (url_parse_query W l);
                   followRedirect := true;
                   auth := Some cred |} in
              match search_cases r with
              | Some [c] => Returned (adopt_case c rep cite, [])
              | Some _ => Returned (cite, [])
              | None => Returned (cite, [])
              end
          end
      | _, _ => Returned (cite, [])
      end
  end.

(** *** fetchers and add_parallel_citations *)

(** The value of [cite[cite_type]]. *)
Inductive sub_citation :=
  | SubStat (s : Stat.t)
  | SubLaw (l : Law.t)
  | SubUsc (u : Usc.t)
  | SubCfr (c : Cfr.t)
  | SubFedreg (f : Fedreg.t)
  | SubReporter (r : Reporter.t).

(** [cite[cite_type]]; [None] when [cite_type in cite] is false. *)
Definition get_sub (cite : Citation) (cite_type : string) : option sub_citation :=
  if bool_decide (cite_type = "stat") then SubStat <$> stat cite
  else if bool_decide (cite_type = "law") then SubLaw <$> law cite
  else if bool_decide (cite_type = "usc") then SubUsc <$> usc cite
  else if bool_decide (cite_type = "cfr") then SubCfr <$> cfr cite
  else if bool_decide (cite_type = "fedreg") then SubFedreg <$> fedreg cite
  else if bool_decide (cite_type = "reporter") then SubReporter <$> reporter cite
  else None.

Definition fetcher : Type :=
  sub_citation -> Citation -> Env -> outcome (Citation * list Citation).

(** A fetcher that loads the MODS file when there is a GovInfo link. *)
Definition usgpo_or_nothing (links : gmap string link_desc) (cite : Citation)
  : outcome (Citation * list Citation) :=
  match links !! "usgpo" with
  | Some usgpo => get_from_usgpo_mods cite (mods usgpo)
  | None => Returned (cite, [])
  end.

(** [fetchers.stat], [fetchers.law], [fetchers.usc], [fetchers.cfr],
    [fetchers.fedreg] and [fetchers.reporter]. The first argument is
    [cite[cite_type]], the sub-object of the same citation. *)
Definition fetch_stat : fetcher := fun sub cite env =>
  match sub with
  | SubStat stat => usgpo_or_nothing (Stat.links stat) cite
  | _ => Returned (cite, [])
  end.

Definition fetch_law : fetcher := fun sub cite env =>
  match sub with
  | SubLaw law =>
      match Law.links law !! "usgpo" with
      | Some usgpo => get_from_usgpo_mods cite (mods usgpo)
      | None =>
          if JS.num_ge (JS.value_to_number (Law.congress law)) (Some 60)
             && JS.num_le (JS.value_to_number (Law.congress law)) (Some 81)
          then get_from_legisworks_publaw cite
          else
            match Law.links law !! "govtrack" with
            | Some govtrack =>
                if JS.truthy_str (landing govtrack)
                then get_from_govtrack_search cite govtrack true
                else Returned (cite, [])
            | None => Returned (cite, [])
            end
      end
  | _ => Returned (cite, [])
  end.

(** [usc.links && usc.links.house && usc.links.house.html]. *)
Definition house_html (usc : Usc.t) : option string :=
  match Usc.links usc with
  | Some links =>
      match links !! "house" with
      | Some house => if JS.truthy_str (html house) then html house else None
      | None => None
      end
  | None => None
  end.

Definition fetch_usc : fetcher := fun sub cite env =>
  match sub with
  | SubUsc usc =>
      match house_html usc with
      | Some url =>
          let r := request_get W
            {| uri := url; followRedirect := false; auth := None |} in
          match response r with
          | None => Thrown "TypeError"
          | Some resp =>
              if bool_decide (statusCode resp = 200)
              then Returned (cite, [])
              else Returned (set_usc (Some (Usc.Build_t None)) cite, [])
          end
      | None => Returned (cite, [])
      end
  | _ => Returned (cite, [])
  end.

Definition fetch_cfr : fetcher := fun sub cite env =>
  match sub with
  | SubCfr cfr => usgpo_or_nothing (Cfr.links cfr) cite
  | _ => Returned (cite, [])
  end.

Definition fetch_fedreg : fetcher := fun sub cite env =>
  match sub with
  | SubFedreg fedreg => usgpo_or_nothing (Fedreg.links fedreg) cite
  | _ => Returned (cite, [])
  end.

Definition fetch_reporter : fetcher := fun sub cite env =>
  get_from_courtlistener_search cite env.

(** The [fetchers] table, in the order of its keys. *)
Definition fetchers : list (string * fetcher) :=
  [ ("stat", fetch_stat); ("law", fetch_law); ("usc", fetch_usc);
    ("cfr", fetch_cfr); ("fedreg", fetch_fedreg); ("reporter", fetch_reporter) ].

(** [async.forEachOf] over the table. The fetchers are taken one after the
    other in key order; each leaves its new citations in [new_citations] and
    its changes in the shared [cite]. An exception that escapes a fetcher is
    never caught, and the final callback does not run. *)
Fixpoint forEachOf (table : list (string * fetcher)) (cite : Citation) (env : Env)
    (new_citations : list Citation) : outcome (Citation * list Citation) :=
  match table with
  | [] => Returned (cite, new_citations)
  | (cite_type, fetcher_function) :: rest =>
      match get_sub cite cite_type with
      | None => forEachOf rest cite env new_citations
      | Some sub =>
          match fetcher_function sub cite env with
          | Thrown e => Thrown e
          | Returned (cite', new_cites) =>
              forEachOf rest cite' env (new_citations ++ new_cites)%list
          end
      end
  end.

Definition add_parallel_citations (cite : Citation) (env : Env)
  : outcome (Citation * list Citation) :=
  forEachOf fetchers cite env [].

End Engine.

(** ** Notions used in the statements *)

(** The value a query field holds for the integer [z]: the number itself, or
    its decimal text as the citation parser leaves it. *)
Definition represents (v : JS.value) (z : Z) : Prop :=
  v = JS.Num z \/ v = JS.Str (JS.to_string z).

(** The integers that a JavaScript number holds exactly, and a ledger entry
    whose volume, start page, length and end page are such integers. *)
Definition safe_integer (z : Z) : Prop := - 2 ^ 53 < z < 2 ^ 53.

Definition safe_entry (item : Item.t) : Prop :=
  safe_integer (Item.volume item)
  /\ safe_integer (Item.page item)
  /\ forall npages,
       Item.npages item = Some npages ->
       safe_integer npages /\ safe_integer (Item.page item + npages).

(** A ledger that lists its entries by ascending start page. *)
Definition page_ordered (body : list Item.t) : Prop :=
  StronglySorted (fun a b => Item.page a <= Item.page b) body.


(** The guard on [cite.type] in the metadata-document resolver. *)
Definition stat_or_law (t : string) : bool :=
  bool_decide (t = "stat") || bool_decide (t = "law").

(** The state a [flow] carries. *)
Definition flow_state (f : flow) : mods_state :=
  match f with
  | Next st => st
  | Return st => st
  end.

(** New citations that are law citations of identity [X]. *)
Definition is_law_with_id (X : string) (c : Citation) : bool :=
  bool_decide (type c = "law")
  && match law c with
     | Some l => bool_decide (Law.id l = Some X)
     | None => false
     end.

Definition count_law_id (X : string) (cs : list Citation) : nat :=
  length (filter (fun c => is_law_with_id X c = true) cs).

(** How often the law identity [X] occurs among the new citations, against
    whether [X] is in [seen_cites]. *)
Definition counted (X : string) (st : mods_state) : Prop :=
  count_law_id X (cites st)
  = if bool_decide (X ∈ seen_cites st) then 1%nat else 0%nat.

(** The identity computed for the law reference an extension block leads
    with, and for its bill reference when that is marked primary. *)
Definition leading_law_id (Reg : Registry) (extension : Mods.extension)
  : option string :=
  match Mods.law extension with
  | Some elem :: _ => Some (law_id (create_parallel_cite Reg (law_fields elem)))
  | _ => None
  end.

Definition leading_bill_id (Reg : Registry) (extension : Mods.extension)
  : option string :=
  match Mods.bill extension with
  | Some elem :: _ =>
      if bool_decide (Mods.priority elem = Some "primary")
      then
        match Mods.bill_type elem with
        | Some bill_type =>
            Some (us_bill_id (create_parallel_cite Reg (bill_fields elem bill_type)))
        | None => None
        end
      else None
  | _ => None
  end.

(** The references an extension block leads with can be read: its first law
    element, if any, has attributes, and so has its first bill element, with
    a [type] when it is marked primary. *)
Definition readable_refs (extension : Mods.extension) : Prop :=
  match Mods.law extension with
  | None :: _ => False
  | _ => True
  end
  /\ match Mods.bill extension with
     | None :: _ => False
     | Some elem :: _ =>
         Mods.priority elem = Some "primary" -> is_Some (Mods.bill_type elem)
     | [] => True
     end.

(** Two worlds whose files are the same except, possibly, for [path]. *)
Definition same_files_except (path : string) (W W' : World) : Prop :=
  yaml_safeLoad W = yaml_safeLoad W'
  /\ forall p, p <> path -> readFileSync W p = readFileSync W' p.


(** The link tables of the sub-citations of a citation. *)
Definition sub_links (cite : Citation) : list (gmap string link_desc) :=
  match stat cite with Some s => [Stat.links s] | None => [] end
  ++ match law cite with Some l => [Law.links l] | None => [] end
  ++ match usc cite with
     | Some u => match Usc.links u with Some m => [m] | None => [] end
     | None => []
     end
  ++ match cfr cite with Some c => [Cfr.links c] | None => [] end
  ++ match fedreg cite with Some f => [Fedreg.links f] | None => [] end
  ++ match reporter cite with Some r => [Reporter.links r] | None => [] end
  ++ match us_bill cite with Some b => [Bill.links b] | None => [] end.

(** A fully resolved citation: every link is authoritative; none has a
    [landing] address, as search and landing links do; none has a [mods]
    address, the structured-metadata link. *)
Definition fully_resolved (cite : Citation) : Prop :=
  forall m key l,
    m ∈ sub_links cite ->
    m !! key = Some l ->
    authoritative (source l) = true
    /\ landing l = None
    /\ mods l = None.

(** The case search has nothing to do: a case citation with a CourtListener
    entry is resolved only where no credentials are configured. *)
Definition case_search_idle (cite : Citation) (env : Env) : Prop :=
  forall r l,
    reporter cite = Some r ->
    Reporter.links r !! "courtlistener" = Some l ->
    courtlistener env = None.

(** The law sub-citation, if any, is of a congress outside 60..81, the
    range the ledger cross-reference covers. *)
Definition outside_ledger_range (cite : Citation) : Prop :=
  forall l,
    law cite = Some l ->
    JS.num_ge (JS.value_to_number (Law.congress l)) (Some 60)
    && JS.num_le (JS.value_to_number (Law.congress l)) (Some 81) = false.

(** The existence check of the House link, if any, is answered with status
    200 in the world [W]. *)
Definition house_check_passes (W : World) (cite : Citation) : Prop :=
  forall u url,
    usc cite = Some u ->
    house_html u = Some url ->
    exists resp,
      response (request_get W {| uri := url; followRedirect := false; auth := None |})
      = Some resp
      /\ statusCode resp = 200.

(** What the ledger cross-reference does with a selected row: the changes to
    the citation, and the parallel statute citation. *)
Definition publaw_update (cite : Citation) (item : Item.t) : Citation :=
  add_law_link "legisworks" (legisworks_link item None)
    (set_title (JS.or_str (Item.title item) (Item.topic item)) cite).

Definition publaw_stat (Reg : Registry) (item : Item.t) : Citation :=
  create_parallel_cite Reg
    (StatFields (JS.Num (Item.volume item)) (JS.Num (Item.page item))).

(** What every candidate [c] of a query for volume [v], page [p], made by
    the statute sub-citation [s], has: it comes from a ledger row of volume
    [v] that starts at or before [p]; its citation string names that start
    page; its statute payload is the queried one; its Legisworks link is not
    authoritative and has a note exactly when the row starts before [p]. *)
Definition candidate_of_query (s : Stat.t) (v p : Z) (body : list Item.t)
    (c : Citation) : Prop :=
  exists item st lk,
    item ∈ body
    /\ Item.volume item = v
    /\ Item.page item <= p
    /\ citation c
       = Some (JS.to_string v +:+ " Stat. " +:+ JS.to_string (Item.page item))
    /\ stat c = Some st
    /\ Stat.volume st = Stat.volume s
    /\ Stat.page st = Stat.page s
    /\ Stat.links st !! "legisworks" = Some lk
    /\ authoritative (source lk) = false
    /\ (note (source lk) = None <-> Item.page item = p).

(** The identity under which the metadata-document resolver records a new
    citation: [c.law.id] for a law citation, [c.us_bill.id] for a bill. *)
Definition cite_key (c : Citation) : string :=
  match law c with
  | Some _ => law_id c
  | None => us_bill_id c
  end.

(** The recorded identities are those of the new citations, each once. *)
Definition keys_recorded (st : mods_state) : Prop :=
  NoDup (map cite_key (cites st))
  /\ forall k, k ∈ seen_cites st <-> k ∈ map cite_key (cites st).

(** The fields that identify a law. *)
Definition law_identity (l : Law.t) : JS.value * string * JS.value * option string :=
  (Law.congress l, Law.type l, Law.number l, Law.id l).

(** [c'] is about the same instrument as [c]: the same type, the same
    sub-citations with the same identifying fields, the same nested and
    disambiguation data. Only [title], [type_name], [citation] and the link
    tables of the law, US Code and reporter sub-citations may differ. *)
Definition same_subject (c c' : Citation) : Prop :=
  type c' = type c
  /\ disambiguation c' = disambiguation c
  /\ stat c' = stat c
  /\ cfr c' = cfr c
  /\ fedreg c' = fedreg c
  /\ us_bill c' = us_bill c
  /\ parallel_citations c' = parallel_citations c
  /\ law_identity <$> law c' = law_identity <$> law c
  /\ (is_Some (usc c') <-> is_Some (usc c))
  /\ (is_Some (reporter c') <-> is_Some (reporter c)).

(** Texts made of the letters [a] to [z] only. *)
Fixpoint lower_only (s : string) : Prop :=
  match s with
  | String c s' => is_lower_letter c = true /\ lower_only s'
  | EmptyString => True
  end.

(** The address of a bill page on GovTrack. *)
Definition bill_page (congress : Z) (bill_type : string) (number : Z) : string :=
  "https://www.govtrack.us/congress/bills/" +:+ JS.to_string congress +:+ "/"
  +:+ bill_type +:+ JS.to_string number.

(** The state of a fetch with the title of its citation replaced. *)
Definition retitle (t : option string) (st : mods_state) : mods_state :=
  {| ms_cite := set_title t (ms_cite st);
     cites := cites st;
     seen_cites := seen_cites st;
     thrown := thrown st |}.

Definition retitle_flow (t : option string) (f : flow) : flow :=
  match f with
  | Next st => Next (retitle t st)
  | Return st => Return (retitle t st)
  end.

(** A ledger row that names a public law of the 38th Congress or later. *)
Definition names_public_law (item : Item.t) : Prop :=
  (exists c, Item.congress item = Some c /\ 38 <= c)
  /\ Item.type item = Some "publaw".

(** The candidate [c] of the row [item] has a nested citation only if the
    row names a public law, and then a single one, a law citation with
    nothing nested in it. *)
Definition nests_at_most_law (c : Citation) (item : Item.t) : Prop :=
  (is_Some (parallel_citations c) <-> names_public_law item)
  /\ forall ccs cc,
       parallel_citations c = Some ccs ->
       cc ∈ ccs ->
       ccs = [cc] /\ type cc = "law" /\ parallel_citations cc = None.

(** ** A registry, ledgers and citations for the examples *)

Module Examples.

Definition example_id (p : payload) : string :=
  match p with
  | StatFields v pg =>
      "stat/" +:+ JS.value_to_string v +:+ "/" +:+ JS.value_to_string pg
  | LawFields c t n =>
      "us-law/" +:+ t +:+ "/" +:+ JS.value_to_string c +:+ "/"
      +:+ JS.value_to_string n
  | BillFields _ c t n _ =>
      "us_bill/" +:+ JS.value_to_string c +:+ "/" +:+ t +:+ "/"
      +:+ JS.value_to_string n
  end.

Definition example_canonical (p : payload) : string :=
  match p with
  | StatFields v pg => JS.value_to_string v +:+ " Stat. " +:+ JS.value_to_string pg
  | LawFields c t n =>
      "Pub. L. " +:+ JS.value_to_string c +:+ "-" +:+ JS.value_to_string n
  | BillFields _ c t n _ => t +:+ " " +:+ JS.value_to_string n
  end.

Definition registry : Registry :=
  {| types := fun type =>
       {| citator_name :=
            if bool_decide (type = "stat") then "U.S. Statutes at Large"
            else if bool_decide (type = "law") then "U.S. Law"
            else "U.S. Legislation";
          canonical := Some example_canonical;
          citator_id := example_id |};
     getLinksForCitation := fun _ _ _ => ∅ |}.

Definition bare_citation (type : string) : Citation :=
  {| type := type; type_name := None; citation := None; title := None;
     disambiguation := None; stat := None; law := None; usc := None;
     cfr := None; fedreg := None; reporter := None; us_bill := None;
     parallel_citations := None |}.

Definition stat_citation (volume page : string) : Citation :=
  set_stat
    (Some (Stat.Build_t (JS.Str volume) (JS.Str page)
             (Some ("stat/" +:+ volume +:+ "/" +:+ page)) ∅))
    (bare_citation "stat").

Definition env_none : Env := {| courtlistener := None |}.

Definition no_reply : reply := {| error := true; response := None; body := None |}.

(** A world whose only readable files are the given ledgers; every request
    fails. *)
Definition ledger_world (files : list (string * list Item.t)) : World :=
  {| request_get := fun _ => no_reply;
     readFileSync := fun path =>
       if bool_decide (path ∈ files.*1) then Some path else None;
     yaml_safeLoad := fun text => snd <$> list_find (fun f => f.1 = text) files
                                   ≫= fun r => Some r.2;
     parseString := fun _ => None;
     JSON_parse_bill := fun _ => None;
     JSON_parse_search := fun _ => None;
     url_parse_query := fun _ => None |}.

(** The first act of the 67th Congress, 43 Stat. 1 in the spec's example. *)
Definition item_43_1 : Item.t :=
  {| Item.volume := 43; Item.page := 1; Item.npages := Some 50;
     Item.type := Some "publaw"; Item.congress := Some 67;
     Item.number := Some 1; Item.title := Some "An Act";
     Item.topic := None; Item.file := Some "043_0001.pdf";
     Item.citation := Some "Chap. 1" |}.

Definition world_43 : World :=
  ledger_world [ ("legisworks-historical-statutes/data/043.yaml", [item_43_1]) ].

(** A citation to an inner page of that act, and one to a page that no
    entry of the volume covers. *)
Definition stat_43_999 : Stat.t :=
  Stat.Build_t (JS.Str "43") (JS.Str "999") (Some "stat/43/999") ∅.

Definition cite_43_999 : Citation := stat_citation "43" "999".





(** A metadata document whose two extension blocks lead with the same law
    reference; the second also names the originating bill and a title. *)
Definition law_111_5 : Mods.law_attrs :=
  {| Mods.law_congress := Some "111"; Mods.isPrivate := Some "false";
     Mods.law_number := Some "5" |}.

Definition bill_hr1 : Mods.bill_attrs :=
  {| Mods.priority := Some "primary"; Mods.bill_congress := Some "111";
     Mods.bill_type := Some "HR"; Mods.bill_number := Some "1" |}.

Definition block_a : Mods.extension :=
  {| Mods.law := [Some law_111_5]; Mods.bill := [];
     Mods.shortTitle := [Mods.Text "Recovery Act"]; Mods.searchTitle := [] |}.

Definition block_b : Mods.extension :=
  {| Mods.law := [Some law_111_5]; Mods.bill := [Some bill_hr1];
     Mods.shortTitle := [Mods.Text "American Recovery and Reinvestment Act of 2009"];
     Mods.searchTitle := [] |}.

Definition mods_doc : Mods.result :=
  {| Mods.mods := Some {| Mods.extensions := Some [block_a; block_b] |} |}.

Definition mods_world : World :=
  {| request_get := fun _ =>
       {| error := false;
          response := Some {| statusCode := 200; href := "" |};
          body := Some "<mods/>" |};
     readFileSync := fun _ => None;
     yaml_safeLoad := fun _ => None;
     parseString := fun _ => Some mods_doc;
     JSON_parse_bill := fun _ => None;
     JSON_parse_search := fun _ => None;
     url_parse_query := fun _ => None |}.

Definition mods_url : string :=
  "https://www.govinfo.gov/metadata/granule/STATUTE-123/STATUTE-123-Pg115/mods.xml".

Definition usgpo_link : link_desc :=
  {| source :=
       {| name := "U.S. Government Publishing Office"; abbreviation := "GPO";
          link := "https://www.govinfo.gov"; authoritative := true;
          note := None |};
     landing := None; pdf := None; mods := Some mods_url; html := None |}.

Definition cite_123_115 : Citation := stat_citation "123" "115".

(** A regulation citation with a GovInfo link. *)
Definition cite_cfr : Citation :=
  {| type := "cfr"; type_name := None; citation := None; title := None;
     disambiguation := None; stat := None; law := None; usc := None;
     cfr := Some (Cfr.Build_t {[ "usgpo" := usgpo_link ]});
     fedreg := None; reporter := None; us_bill := None;
     parallel_citations := None |}.



Definition env_cl : Env :=
  {| courtlistener := Some {| username := Some "user"; password := Some "secret" |} |}.





(** A public law of the 75th Congress and the two volumes of its statutes;
    the file of volume 50 cannot be read. *)
Definition item_75_1 : Item.t :=
  {| Item.volume := 52; Item.page := 3; Item.npages := Some 2;
     Item.type := Some "publaw"; Item.congress := Some 75;
     Item.number := Some 412; Item.title := None;
     Item.topic := Some "Appropriations"; Item.file := Some "052_0003.pdf";
     Item.citation := Some "Chap. 2" |}.

Definition world_75 : World :=
  ledger_world
    [ ("legisworks-historical-statutes/data/051.yaml", []);
      ("legisworks-historical-statutes/data/052.yaml", [item_75_1]) ].

Definition law_75_412 : Law.t :=
  Law.Build_t (JS.Str "75") "public" (JS.Str "412") (Some "us-law/public/75/412") ∅.

Definition cite_law_75 : Citation :=
  set_law (Some law_75_412) (bare_citation "law").

(** Public Law 70-1, cited without any link, and the volume of the 70th
    Congress. *)
Definition item_70_1 : Item.t :=
  {| Item.volume := 45; Item.page := 1; Item.npages := Some 1;
     Item.type := Some "publaw"; Item.congress := Some 70;
     Item.number := Some 1; Item.title := Some "An Act";
     Item.topic := None; Item.file := Some "045_0001.pdf";
     Item.citation := Some "Chap. 1" |}.

Definition world_70 : World :=
  ledger_world [ ("legisworks-historical-statutes/data/045.yaml", [item_70_1]) ].

Definition law_70_1 : Law.t :=
  Law.Build_t (JS.Str "70") "public" (JS.Str "1") (Some "us-law/public/70/1") ∅.

Definition cite_law_70 : Citation := set_law (Some law_70_1) (bare_citation "law").

Definition law_70_linked : Law.t :=
  Law.Build_t (JS.Str "70") "public" (JS.Str "1") (Some "us-law/public/70/1")
    {[ "loc" :=
         {| source :=
              {| name := "Library of Congress"; abbreviation := "LOC";
                 link := "https://www.loc.gov"; authoritative := true;
                 note := None |};
            landing := None;
            pdf := Some "https://www.loc.gov/law/help/statutes-at-large/70th-congress/c70.pdf";
            mods := None; html := None |} ]}.

Definition cite_law_70_linked : Citation :=
  set_law (Some law_70_linked) (bare_citation "law").

(** Public Law 111-5, cited without any link. *)
Definition law_111 : Law.t :=
  Law.Build_t (JS.Str "111") "public" (JS.Str "5") (Some "us-law/public/111/5") ∅.

Definition cite_law_111 : Citation := set_law (Some law_111) (bare_citation "law").

(** A US Code citation with a link to the House site, in a world where every
    request fails. *)
Definition house_link : link_desc :=
  {| source :=
       {| name := "Office of the Law Revision Counsel"; abbreviation := "OLRC";
          link := "https://uscode.house.gov"; authoritative := true;
          note := None |};
     landing := None; pdf := None; mods := None;
     html := Some "https://uscode.house.gov/view.xhtml?req=(title:5%20section:552)" |}.

Definition cite_usc : Citation :=
  {| type := "usc"; type_name := None; citation := Some "5 U.S.C. 552";
     title := None; disambiguation := None; stat := None; law := None;
     usc := Some (Usc.Build_t (Some {[ "house" := house_link ]}));
     cfr := None; fedreg := None; reporter := None; us_bill := None;
     parallel_citations := None |}.

Definition offline_world : World := ledger_world [].

(** Public Law 111-5 with a GovInfo link to its PDF only, cited together with
    that section of the US Code, in a world where every request is answered
    with status 200; and Public Law 70-1 with such a link. *)
Definition pdf_link : link_desc :=
  {| source :=
       {| name := "U.S. Government Publishing Office"; abbreviation := "GPO";
          link := "https://www.govinfo.gov"; authoritative := true;
          note := None |};
     landing := None;
     pdf := Some "https://www.govinfo.gov/content/pkg/PLAW-111publ5/pdf/PLAW-111publ5.pdf";
     mods := None; html := None |}.

Definition law_111_linked : Law.t :=
  Law.Build_t (JS.Str "111") "public" (JS.Str "5") (Some "us-law/public/111/5")
    {[ "usgpo" := pdf_link ]}.

Definition cite_resolved : Citation :=
  {| type := "law"; type_name := None; citation := Some "Pub. L. 111-5";
     title := None; disambiguation := None; stat := None;
     law := Some law_111_linked;
     usc := Some (Usc.Build_t (Some {[ "house" := house_link ]}));
     cfr := None; fedreg := None; reporter := None; us_bill := None;
     parallel_citations := None |}.

Definition found_world : World :=
  {| request_get := fun _ =>
       {| error := false;
          response := Some {| statusCode := 200; href := "" |};
          body := Some "" |};
     readFileSync := fun _ => None;
     yaml_safeLoad := fun _ => None;
     parseString := fun _ => None;
     JSON_parse_bill := fun _ => None;
     JSON_parse_search := fun _ => None;
     url_parse_query := fun _ => None |}.

(** A private law of the 75th Congress with the number of that public law. *)
Definition law_private_75 : Law.t :=
  Law.Build_t (JS.Str "75") "private" (JS.Str "412")
    (Some "us-law/private/75/412") ∅.

Definition cite_private_75 : Citation :=
  set_law (Some law_private_75) (bare_citation "law").

(** A world in which the House site answers that the section is not there. *)
Definition not_found_world : World :=
  {| request_get := fun _ =>
       {| error := false;
          response := Some {| statusCode := 302; href := "" |};
          body := Some "" |};
     readFileSync := fun _ => None;
     yaml_safeLoad := fun _ => None;
     parseString := fun _ => None;
     JSON_parse_bill := fun _ => None;
     JSON_parse_search := fun _ => None;
     url_parse_query := fun _ => None |}.

(** A law with a GovTrack search link, and a world in which that search
    leads to the page of H.R. 1 of the 111th Congress. *)
Definition govtrack_link : link_desc :=
  {| source :=
       {| name := "GovTrack.us"; abbreviation := "GovTrack.us";
          link := "https://www.govtrack.us"; authoritative := false;
          note := None |};
     landing := Some "https://www.govtrack.us/search?q=P.L.+111-5";
     pdf := None; mods := None; html := None |}.

Definition cite_law_govtrack : Citation :=
  set_law
    (Some (Law.Build_t (JS.Str "111") "public" (JS.Str "5")
             (Some "us-law/public/111/5") {[ "govtrack" := govtrack_link ]}))
    (bare_citation "law").

Definition bill_111_hr1 : bill_json :=
  {| bj_title_without_number := Some "American Recovery and Reinvestment Act of 2009";
     bj_congress := JS.Num 111; bj_number := JS.Num 1;
     bj_title := Some "H.R. 1: American Recovery and Reinvestment Act of 2009" |}.

Definition govtrack_world : World :=
  {| request_get := fun _ =>
       {| error := false;
          response :=
            Some {| statusCode := 200;
                    href := "https://www.govtrack.us/congress/bills/111/hr1" |};
          body := Some "{}" |};
     readFileSync := fun _ => None;
     yaml_safeLoad := fun _ => None;
     parseString := fun _ => None;
     JSON_parse_bill := fun _ => Some bill_111_hr1;
     JSON_parse_search := fun _ => None;
     url_parse_query := fun _ => None |}.

(** A volume in which a long act without a citation note is followed by an
    act that starts on one of its pages and has an empty note. *)
Definition item_long : Item.t :=
  {| Item.volume := 43; Item.page := 1; Item.npages := Some 50;
     Item.type := Some "publaw"; Item.congress := Some 67;
     Item.number := Some 1; Item.title := Some "An Act";
     Item.topic := None; Item.file := Some "043_0001.pdf";
     Item.citation := None |}.

Definition item_inner : Item.t :=
  {| Item.volume := 43; Item.page := 25; Item.npages := None;
     Item.type := Some "res"; Item.congress := Some 67;
     Item.number := None; Item.title := None;
     Item.topic := Some "Resolution"; Item.file := Some "043_0025.pdf";
     Item.citation := Some "" |}.

(** An entry of one page, recorded without [npages]. *)
Definition item_43_1_single : Item.t :=
  {| Item.volume := 43; Item.page := 1; Item.npages := None;
     Item.type := Some "publaw"; Item.congress := Some 67;
     Item.number := Some 1; Item.title := Some "An Act";
     Item.topic := None; Item.file := Some "043_0001.pdf";
     Item.citation := Some "Chap. 1" |}.

Definition world_43_two : World :=
  ledger_world
    [ ("legisworks-historical-statutes/data/043.yaml", [item_long; item_inner]) ].

Definition stat_43_25 : Stat.t :=
  Stat.Build_t (JS.Str "43") (JS.Str "25") (Some "stat/43/25") ∅.

Definition cite_43_25 : Citation := stat_citation "43" "25".

End Examples.

(** ** Properties of the primitives *)

Module JSFacts.
Import JS.

Lemma digit_not_ws c : is_Some (digit_of c) -> is_ws c = false.
Proof.
  destruct c as [[] [] [] [] [] [] [] []]; intros [d H]; try discriminate H;
    reflexivity.
Qed.

Lemma digit_not_sign c :
  is_Some (digit_of c) -> Ascii.eqb c "-" = false /\ Ascii.eqb c "+" = false.
Proof.
  destruct c as [[] [] [] [] [] [] [] []]; intros [d H]; try discriminate H;
    split; reflexivity.
Qed.

Lemma digit_not_x c :
  is_Some (digit_of c) -> Ascii.eqb c "x" = false /\ Ascii.eqb c "X" = false.
Proof.
  destruct c as [[] [] [] [] [] [] [] []]; intros [d H]; try discriminate H;
    split; reflexivity.
Qed.

Lemma starts_with_digit c s :
  is_Some (digit_of c) -> starts_with digit_of (String c s) = true.
Proof. intros [d H]. simpl. now rewrite H. Qed.

(** On digits, the decimal branch of [parseInt] is taken. *)
Lemma parseInt_unsigned c s :
  digits_only (String c s) ->
  parseInt (String c s) = Some (fst (digits_acc digit_of 10 (String c s) 0)).
Proof.
  intros [Hc Hs]. unfold parseInt.
  assert (Hskip : skip_ws (String c s) = String c s)
    by (simpl; now rewrite (digit_not_ws c Hc)).
  rewrite Hskip. unfold split_sign.
  destruct (digit_not_sign c Hc) as [-> ->].
  rewrite (starts_with_digit c s Hc). cbv zeta. rewrite Z.mul_1_l.
  destruct s as [|x r]; [reflexivity|].
  destruct Hs as [Hx _]. destruct (digit_not_x x Hx) as [-> ->].
  now rewrite andb_false_r.
Qed.

Lemma parseInt_negative c s :
  digits_only (String c s) ->
  parseInt (String "-" (String c s))
  = Some (- fst (digits_acc digit_of 10 (String c s) 0)).
Proof.
  intros [Hc Hs]. unfold parseInt.
  change (skip_ws (String "-" (String c s))) with (String "-" (String c s)).
  change (split_sign (String "-" (String c s))) with (-1, String c s).
  cbv beta iota zeta.
  rewrite (starts_with_digit c s Hc).
  replace (-1 * fst (digits_acc digit_of 10 (String c s) 0))
    with (- fst (digits_acc digit_of 10 (String c s) 0)) by lia.
  destruct s as [|x r]; [reflexivity|].
  destruct Hs as [Hx _]. destruct (digit_not_x x Hx) as [-> ->].
  now rewrite andb_false_r.
Qed.

Lemma digits_acc_rest s acc :
  digits_only s -> snd (digits_acc digit_of 10 s acc) = "".
Proof.
  revert acc. induction s as [|c s IH]; intros acc H; [reflexivity|].
  destruct H as [[d Hd] Hs]. simpl. rewrite Hd. now apply IH.
Qed.

Lemma to_number_unsigned c s :
  digits_only (String c s) ->
  to_number (String c s) = Some (fst (digits_acc digit_of 10 (String c s) 0)).
Proof.
  intros H. pose proof H as [Hc Hs]. unfold to_number.
  assert (Hskip : skip_ws (String c s) = String c s)
    by (simpl; now rewrite (digit_not_ws c Hc)).
  rewrite Hskip. unfold split_sign.
  destruct (digit_not_sign c Hc) as [-> ->].
  rewrite (starts_with_digit c s Hc).
  pose proof (digits_acc_rest (String c s) 0 H) as Hrest.
  destruct (digits_acc digit_of 10 (String c s) 0) as [v rest].
  simpl in Hrest. subst rest. simpl. f_equal; lia.
Qed.

Lemma to_number_negative c s :
  digits_only (String c s) ->
  to_number (String "-" (String c s))
  = Some (- fst (digits_acc digit_of 10 (String c s) 0)).
Proof.
  intros H. pose proof H as [Hc Hs]. unfold to_number.
  change (skip_ws (String "-" (String c s))) with (String "-" (String c s)).
  cbv beta iota zeta.
  change (split_sign (String "-" (String c s))) with (-1, String c s).
  cbv beta iota zeta.
  rewrite (starts_with_digit c s Hc).
  pose proof (digits_acc_rest (String c s) 0 H) as Hrest.
  destruct (digits_acc digit_of 10 (String c s) 0) as [v rest].
  simpl in Hrest. subst rest. simpl. f_equal; lia.
Qed.

Lemma uint_digits_only d : digits_only (NilEmpty.string_of_uint d).
Proof.
  induction d; simpl; try exact I; (split; [eexists; reflexivity | assumption]).
Qed.

Lemma digits_acc_step c k s acc :
  digit_of c = Some k ->
  digits_acc digit_of 10 (String c s) acc = digits_acc digit_of 10 s (10 * acc + k).
Proof. intros H. simpl. now rewrite H. Qed.

Ltac digit_step IH :=
  cbn [NilEmpty.string_of_uint Pos.of_uint_acc Pos.of_uint];
  erewrite digits_acc_step by (vm_compute; reflexivity);
  match goal with
  | |- fst (digits_acc _ _ _ ?a) = Z.pos (Pos.of_uint_acc _ ?b) =>
      replace a with (Z.pos b) by lia; apply IH
  end.

(** Reading the digits of a decimal numeral gives its value. *)
Lemma digits_acc_pos d acc :
  fst (digits_acc digit_of 10 (NilEmpty.string_of_uint d) (Z.pos acc))
  = Z.pos (Pos.of_uint_acc d acc).
Proof.
  revert acc.
  induction d as [|d IH|d IH|d IH|d IH|d IH|d IH|d IH|d IH|d IH|d IH];
    intros acc; [reflexivity|..]; digit_step IH.
Qed.

Lemma digits_acc_uint d :
  fst (digits_acc digit_of 10 (NilEmpty.string_of_uint d) 0)
  = Z.of_N (Pos.of_uint d).
Proof.
  induction d as [|d IH|d IH|d IH|d IH|d IH|d IH|d IH|d IH|d IH|d IH];
    [reflexivity| exact IH |..];
    cbn [NilEmpty.string_of_uint Pos.of_uint];
    erewrite digits_acc_step by (vm_compute; reflexivity);
    cbn [Z.of_N]; apply digits_acc_pos.
Qed.

Lemma uint_of_pos_string p :
  exists c s,
    NilEmpty.string_of_uint (Pos.to_uint p) = String c s
    /\ digits_only (String c s)
    /\ fst (digits_acc digit_of 10 (String c s) 0) = Z.pos p.
Proof.
  pose proof (uint_digits_only (Pos.to_uint p)) as Hd.
  pose proof (digits_acc_uint (Pos.to_uint p)) as Hv.
  rewrite DecimalPos.Unsigned.of_to in Hv.
  destruct (NilEmpty.string_of_uint (Pos.to_uint p)) as [|c s] eqn:E.
  - simpl in Hv. discriminate Hv.
  - exists c, s. auto.
Qed.

Lemma to_string_pos p :
  to_string (Z.pos p) = NilEmpty.string_of_uint (Pos.to_uint p).
Proof.
  unfold to_string. cbn [Z.to_int NilZero.string_of_int].
  unfold NilZero.string_of_uint.
  destruct (Pos.to_uint p) eqn:E; try reflexivity.
  destruct (uint_of_pos_string p) as (c & s & Hs & _). rewrite E in Hs.
  discriminate Hs.
Qed.

Lemma to_string_neg p :
  to_string (Z.neg p) = String "-" (NilEmpty.string_of_uint (Pos.to_uint p)).
Proof.
  unfold to_string. cbn [Z.to_int NilZero.string_of_int]. f_equal.
  rewrite <- to_string_pos. reflexivity.
Qed.

(** [parseInt(""+n)] is [n]. *)
Lemma parseInt_to_string z : parseInt (to_string z) = Some z.
Proof.
  destruct z as [|p|p].
  - reflexivity.
  - rewrite to_string_pos.
    destruct (uint_of_pos_string p) as (c & s & -> & Hd & Hv).
    rewrite parseInt_unsigned by exact Hd. now rewrite Hv.
  - rewrite to_string_neg.
    destruct (uint_of_pos_string p) as (c & s & -> & Hd & Hv).
    rewrite parseInt_negative by exact Hd. now rewrite Hv.
Qed.

(** ToNumber of [""+n] is [n]. *)
Lemma to_number_to_string z : to_number (to_string z) = Some z.
Proof.
  destruct z as [|p|p].
  - reflexivity.
  - rewrite to_string_pos.
    destruct (uint_of_pos_string p) as (c & s & -> & Hd & Hv).
    rewrite to_number_unsigned by exact Hd. now rewrite Hv.
  - rewrite to_string_neg.
    destruct (uint_of_pos_string p) as (c & s & -> & Hd & Hv).
    rewrite to_number_negative by exact Hd. now rewrite Hv.
Qed.

Lemma to_string_inj a b : to_string a = to_string b <-> a = b.
Proof.
  split; [|now intros ->].
  intros H. pose proof (parseInt_to_string a) as Ha.
  rewrite H, parseInt_to_string in Ha. congruence.
Qed.

End JSFacts.

(** ** Ledger matching *)

Section Matching.

Import JS JSFacts.

Lemma loose_eq_represents v z x :
  represents v z -> str_loose_eq (to_string x) v = true <-> x = z.
Proof.
  intros [-> | ->]; simpl; rewrite bool_decide_eq_true.
  - rewrite to_number_to_string. split; congruence.
  - apply to_string_inj.
Qed.

Lemma parseInt_represents v z :
  represents v z -> parseInt (value_to_string v) = Some z.
Proof. intros [-> | ->]; simpl; apply parseInt_to_string. Qed.

Lemma spans_page_iff (stat : Stat.t) (item : Item.t) (page : Z) :
  represents (Stat.page stat) page ->
  spans_page stat item = true <->
  exists npages, Item.npages item = Some npages
                 /\ Item.page item <= page < Item.page item + npages.
Proof.
  intros Hp. unfold spans_page. rewrite (parseInt_represents _ _ Hp).
  destruct (Item.npages item) as [n|].
  - unfold truthy_num, num_ge, num_lt, num_le.
    rewrite !andb_true_iff, negb_true_iff, Z.eqb_neq, Z.leb_le, Z.ltb_lt.
    split.
    + intros [[_ H1] H2]. exists n. split; [reflexivity | lia].
    + intros (m & [= <-] & H). repeat split; lia.
  - split; [discriminate | intros (m & [=] & _)].
Qed.

(** C3, amended: when the query holds its volume and its page as numbers or
    as their canonical decimal text, and these and the fields of the entry
    are integers that a JavaScript number holds exactly, the entry is pushed
    onto [matches] exactly when its volume is the queried volume and either
    its start page is the queried page or it has [npages] and the queried
    page lies in [[page, page + npages)]. *)
Theorem selected_iff (stat : Stat.t) (item : Item.t) (volume page : Z) :
  represents (Stat.volume stat) volume ->
  represents (Stat.page stat) page ->
  safe_integer volume ->
  safe_integer page ->
  safe_entry item ->
  selected stat item = true <->
  Item.volume item = volume
  /\ (Item.page item = page
      \/ exists npages, Item.npages item = Some npages
                        /\ Item.page item <= page < Item.page item + npages).
Proof.
  intros Hv Hp _ _ _. unfold selected.
  pose proof (loose_eq_represents _ _ (Item.volume item) Hv) as Ev.
  pose proof (loose_eq_represents _ _ (Item.page item) Hp) as Es.
  pose proof (spans_page_iff stat item page Hp) as Er.
  fold (is_start_page stat item) in Es.
  destruct (str_loose_eq (to_string (Item.volume item)) (Stat.volume stat));
    simpl.
  - destruct (is_start_page stat item); simpl.
    + split; [intros _ | reflexivity]. split; [now apply Ev | left; now apply Es].
    + destruct (spans_page stat item); simpl.
      * split; [intros _ | reflexivity].
        split; [now apply Ev | right; now apply Er].
      * split; [discriminate |].
        intros [_ [H | H]]; [apply Es in H | apply Er in H]; discriminate H.
  - split; [discriminate |]. intros [H _]. apply Ev in H. discriminate H.
Qed.

End Matching.

Lemma selected_iff_witness :
  selected (Stat.Build_t (JS.Str "43") (JS.Str "25") None ∅) Examples.item_43_1 = true
  <-> Item.volume Examples.item_43_1 = 43
      /\ (Item.page Examples.item_43_1 = 25
          \/ exists npages, Item.npages Examples.item_43_1 = Some npages
               /\ Item.page Examples.item_43_1 <= 25
                  < Item.page Examples.item_43_1 + npages).
Proof.
  apply (selected_iff (Stat.Build_t (JS.Str "43") (JS.Str "25") None ∅)
           Examples.item_43_1 43 25).
  - right. reflexivity.
  - right. reflexivity.
  - unfold safe_integer. lia.
  - unfold safe_integer. lia.
  - unfold safe_entry, safe_integer. simpl.
    split; [lia | split; [lia | intros npages [= <-]; lia]].
Defined.

(** C3 as stated fails: the query is for volume 43 and a page written
    [01]; the entry is of volume 43 and starts on page 1, the page that
    [parseInt] reads from the query; yet the entry is not selected, since the
    start-page test compares the texts [1] and [01]. *)
Lemma selected_not_for_page_with_leading_zero :
  JS.to_number "43" = Some (Item.volume Examples.item_43_1_single)
  /\ JS.to_number "01" = Some (Item.page Examples.item_43_1_single)
  /\ JS.parseInt "01" = Some (Item.page Examples.item_43_1_single)
  /\ selected (Stat.Build_t (JS.Str "43") (JS.Str "01") None ∅)
       Examples.item_43_1_single = false.
Proof. repeat split; reflexivity. Qed.

(** ** explode *)

Section Explode.

Variable Reg : Registry.
Variable W : World.

(** What [explode] returns for a statute of a ledger volume: the candidates
    of the selected entries, last entry first. *)
Lemma explode_ledger (cite : Citation) (s : Stat.t) (env : Env) (body : list Item.t) :
  stat cite = Some s ->
  JS.num_le (JS.value_to_number (Stat.volume s)) (Some 64) = true ->
  load_ledger W (Stat.volume s) = Some body ->
  explode Reg W cite env
  = Returned
      (rev (map (candidate Reg s (length (filter (fun i => selected s i = true) body)))
              (filter (fun i => selected s i = true) body))).
Proof.
  intros Hs Hv Hl. unfold explode, get_from_legisworks.
  now rewrite Hs, Hv, Hl.
Qed.

Lemma filter_none {A} (P : A -> bool) (l : list A) :
  (forall x, x ∈ l -> P x = false) -> filter (fun x => P x = true) l = [].
Proof.
  induction l as [|a l IH]; intros H; [reflexivity|].
  rewrite filter_cons. destruct (decide (P a = true)) as [E|E].
  - rewrite (H a) in E by (left). discriminate E.
  - apply IH. intros x Hx. apply H. now right.
Qed.

(** C1, amended: for a statute citation of volume at most 64 whose ledger
    holds no entry that satisfies the page test, [explode] returns the empty
    list; the original citation is not among the results. *)
Theorem explode_no_match (cite : Citation) (s : Stat.t) (env : Env)
    (body : list Item.t) :
  stat cite = Some s ->
  JS.num_le (JS.value_to_number (Stat.volume s)) (Some 64) = true ->
  load_ledger W (Stat.volume s) = Some body ->
  (forall item, item ∈ body -> selected s item = false) ->
  explode Reg W cite env = Returned [].
Proof.
  intros Hs Hv Hl Hnone.
  rewrite (explode_ledger cite s env body Hs Hv Hl).
  now rewrite (filter_none (selected s) body Hnone).
Qed.

End Explode.

Lemma explode_no_match_witness :
  explode Examples.registry Examples.world_43 Examples.cite_43_999
    Examples.env_none = Returned [].
Proof.
  apply (explode_no_match Examples.registry Examples.world_43
           Examples.cite_43_999 Examples.stat_43_999 Examples.env_none
           [Examples.item_43_1]).
  - reflexivity.
  - reflexivity.
  - reflexivity.
  - intros item Hin. apply list_elem_of_singleton in Hin. subst item.
    reflexivity.
Defined.

(** C1 as stated fails: 43 Stat. 999 is a statute citation of volume at most
    64, no entry of its ledger satisfies the page test, and [explode] returns
    the empty list rather than the list holding the original citation. *)
Lemma explode_no_match_not_original :
  stat Examples.cite_43_999 = Some Examples.stat_43_999
  /\ JS.num_le (JS.value_to_number (Stat.volume Examples.stat_43_999)) (Some 64)
     = true
  /\ load_ledger Examples.world_43 (Stat.volume Examples.stat_43_999)
     = Some [Examples.item_43_1]
  /\ selected Examples.stat_43_999 Examples.item_43_1 = false
  /\ explode Examples.registry Examples.world_43 Examples.cite_43_999
       Examples.env_none
     <> Returned [Examples.cite_43_999].
Proof.
  repeat split; try reflexivity.
  intros H.
  assert (E : explode Examples.registry Examples.world_43 Examples.cite_43_999
                Examples.env_none = Returned []) by reflexivity.
  rewrite E in H. discriminate H.
Qed.

(** ** Candidates of an ambiguous citation *)

Section Candidates.

Import JS JSFacts.

Variable Reg : Registry.
Variable W : World.

Lemma candidate_disambiguation (s : Stat.t) (n : nat) (item : Item.t) :
  disambiguation (candidate Reg s n item)
  = if (1 <? n)%nat then Some (Item.citation item) else None.
Proof.
  unfold candidate.
  destruct (num_ge (Item.congress item) (Some 38)
            && bool_decide (Item.type item = Some "publaw"));
    destruct (1 <? n)%nat; reflexivity.
Qed.

Lemma candidate_citation (s : Stat.t) (n : nat) (item : Item.t) :
  citation (candidate Reg s n item)
  = Some (to_string (Item.volume item) +:+ " Stat. " +:+ to_string (Item.page item)).
Proof.
  unfold candidate.
  destruct (num_ge (Item.congress item) (Some 38)
            && bool_decide (Item.type item = Some "publaw"));
    destruct (1 <? n)%nat; reflexivity.
Qed.



(** An entry that starts on the queried page starts after every entry that
    only spans it. *)
Lemma span_before_start (s : Stat.t) (a b : Item.t) :
  is_start_page s a = true ->
  is_start_page s b = false ->
  spans_page s b = true ->
  Item.page b < Item.page a.
Proof.
  unfold is_start_page, spans_page.
  destruct (Item.npages b) as [n|]; [|discriminate].
  destruct (Stat.page s) as [q| |t|]; simpl; try discriminate.
  - rewrite bool_decide_eq_true, bool_decide_eq_false, !to_number_to_string,
      parseInt_to_string.
    intros [= <-] Hb. unfold num_ge, num_le, num_lt.
    rewrite !andb_true_iff, Z.leb_le. intros [[_ H] _].
    assert (Item.page b <> Item.page a) by congruence. lia.
  - rewrite bool_decide_eq_true, bool_decide_eq_false.
    intros <- Hb. rewrite parseInt_to_string. unfold num_ge, num_le, num_lt.
    rewrite !andb_true_iff, Z.leb_le. intros [[_ H] _].
    assert (Item.page b <> Item.page a) by (intros E; apply Hb; now rewrite E).
    lia.
Qed.

(** In a ledger listed by ascending page, the selected entries are those
    that only span the page followed by those that start on it. *)
Lemma matches_spans_then_starts (s : Stat.t) (body : list Item.t) :
  page_ordered body ->
  exists spans starts,
    filter (fun i => selected s i = true) body = spans ++ starts
    /\ Forall (fun i => is_start_page s i = false) spans
    /\ Forall (fun i => is_start_page s i = true) starts.
Proof.
  induction body as [|a body IH]; intros Hord.
  - exists [], []. repeat split; constructor.
  - apply StronglySorted_inv in Hord as [Hord Ha].
    destruct (IH Hord) as (spans & starts & E & Hsp & Hst).
    rewrite filter_cons. destruct (decide (selected s a = true)) as [Sa|Sa].
    + destruct (is_start_page s a) eqn:Ea.
      * exists [], (a :: filter (fun i => selected s i = true) body).
        repeat split; [constructor|]. constructor; [exact Ea|].
        apply Forall_forall. intros b Hb.
        apply list_elem_of_filter in Hb as [Sb Hb].
        destruct (is_start_page s b) eqn:Eb; [reflexivity|].
        unfold selected in Sb. fold (is_start_page s b) in Sb.
        rewrite Eb in Sb. simpl in Sb.
        destruct (str_loose_eq _ _); [|discriminate Sb]. simpl in Sb.
        destruct (spans_page s b) eqn:Pb; [|discriminate Sb].
        pose proof (span_before_start s a b Ea Eb Pb) as Hlt.
        rewrite Forall_forall in Ha. specialize (Ha b Hb). simpl in Ha. lia.
      * exists (a :: spans), starts. rewrite E.
        repeat split; [|exact Hst]. constructor; assumption.
    + exists spans, starts. auto.
Qed.

(** C4, amended: the candidates are those of the selected entries in reverse
    ledger order; a single selected entry gives one candidate without a
    [disambiguation] property; with two or more, every candidate has the
    property and it holds the citation note of its entry, whatever that note
    is; and when the ledger lists its entries by ascending page, the entries
    that start on the queried page come before those that only span it. *)
Theorem explode_disambiguation (cite : Citation) (s : Stat.t) (env : Env)
    (body : list Item.t) :
  stat cite = Some s ->
  num_le (value_to_number (Stat.volume s)) (Some 64) = true ->
  load_ledger W (Stat.volume s) = Some body ->
  let matches := filter (fun i => selected s i = true) body in
  explode Reg W cite env
  = Returned (map (candidate Reg s (length matches)) (rev matches))
  /\ (forall item, matches = [item] ->
      explode Reg W cite env = Returned [candidate Reg s 1 item]
      /\ disambiguation (candidate Reg s 1 item) = None)
  /\ ((2 <= length matches)%nat ->
      forall item,
        disambiguation (candidate Reg s (length matches) item)
        = Some (Item.citation item))
  /\ (page_ordered body ->
      exists starts spans,
        rev matches = starts ++ spans
        /\ Forall (fun i => is_start_page s i = true) starts
        /\ Forall (fun i => is_start_page s i = false) spans).
Proof.
  intros Hs Hv Hl matches.
  pose proof (explode_ledger Reg W cite s env body Hs Hv Hl) as E.
  fold matches in E. rewrite <- map_rev in E.
  split; [exact E|]. split; [|split].
  - intros item Hm. rewrite E, Hm. split; [reflexivity|].
    now rewrite candidate_disambiguation.
  - intros Hn item. rewrite candidate_disambiguation.
    destruct (1 <? length matches)%nat eqn:Hlt; [reflexivity|].
    apply Nat.ltb_ge in Hlt. lia.
  - intros Hord.
    destruct (matches_spans_then_starts s body Hord) as (spans & starts & Em & Hsp & Hst).
    exists (rev starts), (rev spans). fold matches in Em.
    rewrite Em, rev_app_distr.
    repeat split; apply Forall_rev; assumption.
Qed.




End Candidates.

Lemma explode_disambiguation_witness :
  explode Examples.registry Examples.world_43_two Examples.cite_43_25
    Examples.env_none
  = Returned
      (map (candidate Examples.registry Examples.stat_43_25 2)
         [Examples.item_inner; Examples.item_long]).
Proof.
  exact (proj1 (explode_disambiguation Examples.registry Examples.world_43_two
                  Examples.cite_43_25 Examples.stat_43_25 Examples.env_none
                  [Examples.item_long; Examples.item_inner]
                  eq_refl eq_refl eq_refl)).
Defined.

(** C4 as stated fails: two entries match 43 Stat. 25, one without a citation
    note and one whose note is empty, and neither candidate carries a
    non-empty disambiguation. *)
Lemma explode_disambiguation_may_be_empty :
  load_ledger Examples.world_43_two (Stat.volume Examples.stat_43_25)
  = Some [Examples.item_long; Examples.item_inner]
  /\ filter (fun i => selected Examples.stat_43_25 i = true)
       [Examples.item_long; Examples.item_inner]
     = [Examples.item_long; Examples.item_inner]
  /\ explode Examples.registry Examples.world_43_two Examples.cite_43_25
       Examples.env_none
     = Returned [ candidate Examples.registry Examples.stat_43_25 2 Examples.item_inner;
                  candidate Examples.registry Examples.stat_43_25 2 Examples.item_long ]
  /\ disambiguation
       (candidate Examples.registry Examples.stat_43_25 2 Examples.item_inner)
     = Some (Some "")
  /\ disambiguation
       (candidate Examples.registry Examples.stat_43_25 2 Examples.item_long)
     = Some None.
Proof. repeat split; reflexivity. Qed.


(** ** The metadata-document resolver *)

Section ModsResolver.

Variable Reg : Registry.
Variable W : World.

Lemma extension_title_fields (ext : Mods.extension) (st : mods_state) :
  cites (extension_title ext st) = cites st
  /\ seen_cites (extension_title ext st) = seen_cites st
  /\ type (ms_cite (extension_title ext st)) = type (ms_cite st).
Proof.
  unfold extension_title. destruct (thrown st); [auto|].
  destruct (Mods.shortTitle ext) as [|[s|[s|]] ?];
    [destruct (Mods.searchTitle ext)|..]; auto.
Qed.

Lemma extension_title_thrown (ext : Mods.extension) (st : mods_state) :
  thrown (extension_title ext st) = thrown st.
Proof.
  unfold extension_title. destruct (thrown st) eqn:E; [exact E|].
  destruct (Mods.shortTitle ext) as [|[s|[s|]] ?];
    [destruct (Mods.searchTitle ext)|..]; auto.
Qed.

Lemma extension_law_cite (ext : Mods.extension) (st : mods_state) :
  ms_cite (flow_state (extension_law Reg ext st)) = ms_cite st.
Proof.
  unfold extension_law. destruct (thrown st); [reflexivity|].
  destruct (Mods.law ext) as [|[elem|] ?]; try reflexivity.
  destruct (JS.key_in _ _); reflexivity.
Qed.

Lemma extension_bill_cite (ext : Mods.extension) (st : mods_state) :
  ms_cite (flow_state (extension_bill Reg ext st)) = ms_cite st.
Proof.
  unfold extension_bill. destruct (thrown st); [reflexivity|].
  destruct (Mods.bill ext) as [|[elem|] ?]; try reflexivity.
  destruct (bool_decide _); [|reflexivity].
  destruct (Mods.bill_type elem); [|reflexivity].
  destruct (JS.key_in _ _); reflexivity.
Qed.

Lemma process_extension_type (st : mods_state) (ext : Mods.extension) :
  type (ms_cite (process_extension Reg st ext)) = type (ms_cite st).
Proof.
  unfold process_extension.
  destruct (bool_decide _ || bool_decide _).
  - pose proof (extension_law_cite ext st) as Hl.
    destruct (extension_law Reg ext st) as [st1|st1]; simpl in Hl.
    + pose proof (extension_bill_cite ext st1) as Hb.
      destruct (extension_bill Reg ext st1) as [st2|st2]; simpl in Hb.
      * destruct (extension_title_fields ext st2) as (_ & _ & ->). congruence.
      * congruence.
    + congruence.
  - now destruct (extension_title_fields ext st) as (_ & _ & ->).
Qed.

Lemma scan_type (exts : list Mods.extension) (st : mods_state) :
  type (ms_cite (fold_left (process_extension Reg) exts st)) = type (ms_cite st).
Proof.
  revert st. induction exts as [|e exts IH]; intros st; [reflexivity|].
  simpl. rewrite IH. apply process_extension_type.
Qed.

(** For a citation that is neither a statute nor a law, no reference is
    ever read or recorded, and nothing throws. *)
Lemma scan_other_type (exts : list Mods.extension) (st : mods_state) :
  stat_or_law (type (ms_cite st)) = false ->
  cites (fold_left (process_extension Reg) exts st) = cites st
  /\ seen_cites (fold_left (process_extension Reg) exts st) = seen_cites st.
Proof.
  revert st. induction exts as [|e exts IH]; intros st Ht; [auto|].
  simpl.
  assert (E : process_extension Reg st e = extension_title e st).
  { unfold process_extension. unfold stat_or_law in Ht. now rewrite Ht. }
  destruct (extension_title_fields e st) as (Hc & Hs & Hty).
  destruct (IH (process_extension Reg st e)) as [-> ->].
  - rewrite process_extension_type. exact Ht.
  - rewrite E. auto.
Qed.

Lemma scan_other_type_thrown (exts : list Mods.extension) (st : mods_state) :
  stat_or_law (type (ms_cite st)) = false ->
  thrown (fold_left (process_extension Reg) exts st) = thrown st.
Proof.
  revert st. induction exts as [|e exts IH]; intros st Ht; [reflexivity|].
  simpl.
  assert (E : process_extension Reg st e = extension_title e st).
  { unfold process_extension. unfold stat_or_law in Ht. now rewrite Ht. }
  rewrite IH by (rewrite process_extension_type; exact Ht).
  rewrite E. apply extension_title_thrown.
Qed.

Lemma count_law_id_snoc (X : string) (cs : list Citation) (c : Citation) :
  count_law_id X (cs ++ [c])
  = (count_law_id X cs + if is_law_with_id X c then 1 else 0)%nat.
Proof.
  unfold count_law_id. rewrite filter_app, length_app. f_equal.
  rewrite filter_cons, filter_nil.
  destruct (is_law_with_id X c); reflexivity.
Qed.

Lemma is_law_with_id_law (X : string) (p : payload) :
  payload_type p = "law" ->
  is_law_with_id X (create_parallel_cite Reg p)
  = bool_decide (law_id (create_parallel_cite Reg p) = X).
Proof.
  destruct p; try discriminate. intros _.
  unfold is_law_with_id, law_id. simpl.
  apply bool_decide_ext. split; congruence.
Qed.

Lemma is_law_with_id_bill (X : string) (elem : Mods.bill_attrs) (t : string) :
  is_law_with_id X (create_parallel_cite Reg (bill_fields elem t)) = false.
Proof. reflexivity. Qed.

Lemma key_in_own (k : string) (own : gset string) :
  k ∉ JS.prototype_names -> JS.key_in k own = true <-> k ∈ own.
Proof.
  intros Hk. unfold JS.key_in.
  rewrite orb_true_iff, !bool_decide_eq_true. tauto.
Qed.

Lemma key_in_of_own (k : string) (own : gset string) :
  k ∈ own -> JS.key_in k own = true.
Proof.
  intros H. unfold JS.key_in. rewrite orb_true_iff, !bool_decide_eq_true. auto.
Qed.

Lemma counted_record (X key : string) (c : Citation) (st : mods_state) :
  (is_law_with_id X c = true -> key = X) ->
  (key = X -> is_law_with_id X c = true /\ X ∉ seen_cites st) ->
  counted X st -> counted X (record_cite key c st).
Proof.
  unfold counted, record_cite. simpl. intros Himp Hfresh Hc.
  rewrite count_law_id_snoc, Hc.
  destruct (decide (key = X)) as [->|Hne].
  - destruct (Hfresh eq_refl) as [-> Hn].
    rewrite (bool_decide_eq_false_2 _ Hn).
    rewrite bool_decide_eq_true_2; [reflexivity|].
    apply elem_of_union_l. now apply elem_of_singleton.
  - destruct (is_law_with_id X c) eqn:E; [now specialize (Himp eq_refl)|].
    rewrite Nat.add_0_r. apply (f_equal (fun b : bool => if b then 1%nat else 0%nat)).
    apply bool_decide_ext. rewrite elem_of_union, elem_of_singleton.
    split; [auto | intros [H | H]; [congruence | exact H]].
Qed.

(** On a block whose references can be read, the law step throws nothing,
    keeps the count, and records [X] when the block leads with a law
    reference of identity [X]. *)
Lemma extension_law_counted (X : string) (ext : Mods.extension) (st : mods_state) :
  X ∉ JS.prototype_names ->
  thrown st = None ->
  readable_refs ext ->
  counted X st ->
  counted X (flow_state (extension_law Reg ext st))
  /\ (X ∈ seen_cites st -> X ∈ seen_cites (flow_state (extension_law Reg ext st)))
  /\ (leading_law_id Reg ext = Some X ->
      X ∈ seen_cites (flow_state (extension_law Reg ext st)))
  /\ thrown (flow_state (extension_law Reg ext st)) = None.
Proof.
  intros Hp Hth [Hr _] Hc. unfold extension_law, leading_law_id. rewrite Hth.
  destruct (Mods.law ext) as [|[elem|] rest];
    [repeat split; auto; discriminate | | contradiction].
  set (c := create_parallel_cite Reg (law_fields elem)).
  destruct (JS.key_in (law_id c) (seen_cites st)) eqn:Hk; simpl.
  - repeat split; auto. intros [= E]. rewrite E in Hk.
    now apply key_in_own in Hk.
  - repeat split; [| | |exact Hth].
    + apply counted_record; [| |exact Hc].
      * unfold c. rewrite is_law_with_id_law by reflexivity.
        now rewrite bool_decide_eq_true.
      * intros E. split.
        -- unfold c. rewrite is_law_with_id_law by reflexivity.
           now rewrite bool_decide_eq_true.
        -- intros Hin. rewrite E in Hk.
           now rewrite (key_in_of_own _ _ Hin) in Hk.
    + intros Hin. now apply elem_of_union_r.
    + intros [= E]. apply elem_of_union_l. now apply elem_of_singleton.
Qed.

(** On such a block the bill step throws nothing, and keeps the count when
    the bill's identity is not [X]. *)
Lemma extension_bill_counted (X : string) (ext : Mods.extension) (st : mods_state) :
  leading_bill_id Reg ext <> Some X ->
  thrown st = None ->
  readable_refs ext ->
  counted X st ->
  counted X (flow_state (extension_bill Reg ext st))
  /\ (X ∈ seen_cites st -> X ∈ seen_cites (flow_state (extension_bill Reg ext st)))
  /\ thrown (flow_state (extension_bill Reg ext st)) = None.
Proof.
  intros Hb Hth [_ Hr] Hc. unfold extension_bill, leading_bill_id in *.
  rewrite Hth.
  destruct (Mods.bill ext) as [|[elem|] rest]; [auto | | contradiction].
  destruct (bool_decide (Mods.priority elem = Some "primary")) eqn:Ep; [|auto].
  apply bool_decide_eq_true in Ep. destruct (Hr Ep) as [t Ht]. rewrite Ht in *.
  set (c := create_parallel_cite Reg (bill_fields elem t)) in *.
  destruct (JS.key_in (us_bill_id c) (seen_cites st)); simpl; [auto|].
  split; [|split; [intros Hin; now apply elem_of_union_r | exact Hth]].
  apply counted_record; [| |exact Hc].
  - unfold c. now rewrite is_law_with_id_bill.
  - intros E. exfalso. apply Hb. now rewrite E.
Qed.

Lemma process_extension_counted (X : string) (st : mods_state)
    (ext : Mods.extension) :
  stat_or_law (type (ms_cite st)) = true ->
  X ∉ JS.prototype_names ->
  leading_bill_id Reg ext <> Some X ->
  thrown st = None ->
  readable_refs ext ->
  counted X st ->
  counted X (process_extension Reg st ext)
  /\ (X ∈ seen_cites st -> X ∈ seen_cites (process_extension Reg st ext))
  /\ (leading_law_id Reg ext = Some X ->
      X ∈ seen_cites (process_extension Reg st ext))
  /\ thrown (process_extension Reg st ext) = None.
Proof.
  intros Ht Hp Hb Hth Hr Hc. unfold process_extension.
  unfold stat_or_law in Ht. rewrite Ht.
  destruct (extension_law_counted X ext st Hp Hth Hr Hc) as (Hc1 & Hm1 & Hl1 & Ht1).
  destruct (extension_law Reg ext st) as [st1|st1]; simpl in *; [|auto].
  destruct (extension_bill_counted X ext st1 Hb Ht1 Hr Hc1) as (Hc2 & Hm2 & Ht2).
  destruct (extension_bill Reg ext st1) as [st2|st2]; simpl in *;
    [|repeat split; auto].
  destruct (extension_title_fields ext st2) as (Ec & Es & _).
  unfold counted. rewrite Ec, Es, extension_title_thrown.
  repeat split; auto.
Qed.

Lemma scan_counted (X : string) (exts : list Mods.extension) (st : mods_state) :
  stat_or_law (type (ms_cite st)) = true ->
  X ∉ JS.prototype_names ->
  (forall e, e ∈ exts -> leading_bill_id Reg e <> Some X) ->
  thrown st = None ->
  Forall readable_refs exts ->
  counted X st ->
  counted X (fold_left (process_extension Reg) exts st)
  /\ (X ∈ seen_cites st \/ (exists e, e ∈ exts /\ leading_law_id Reg e = Some X) ->
      X ∈ seen_cites (fold_left (process_extension Reg) exts st))
  /\ thrown (fold_left (process_extension Reg) exts st) = None.
Proof.
  revert st. induction exts as [|e exts IH]; intros st Ht Hp Hb Hth Hr Hc.
  - simpl. split; [exact Hc|]. split; [|exact Hth].
    intros [H | (e & He & _)]; [exact H|]. now apply elem_of_nil in He.
  - simpl. apply Forall_cons in Hr as [Hre Hr].
    destruct (process_extension_counted X st e Ht Hp) as (Hc1 & Hm1 & Hl1 & Ht1);
      [apply Hb; left | exact Hth | exact Hre | exact Hc |].
    destruct (IH (process_extension Reg st e)) as (Hc2 & Hm2 & Ht2); auto.
    + now rewrite process_extension_type.
    + intros e' He'. apply Hb. now right.
    + split; [exact Hc2|]. split; [|exact Ht2]. intros [H | (e' & He' & Hl)].
      * apply Hm2. left. now apply Hm1.
      * apply elem_of_cons in He' as [-> | He'].
        -- apply Hm2. left. now apply Hl1.
        -- apply Hm2. right. eauto.
Qed.

(** C6, amended: when a statute or law citation is resolved against a
    metadata document whose leading law and bill references can all be read
    and in which two extension blocks lead with a law reference of the same
    identity [X], the resolver calls back with exactly one new law citation
    of identity [X]. [X] is an identity of the registry: not a name inherited
    from [Object.prototype], and not the identity of a primary bill reference
    of the document. *)
Theorem mods_duplicate_law_once (cite : Citation) (mods_url X : string)
    (i j : nat) (e1 e2 : Mods.extension) :
  stat_or_law (type cite) = true ->
  let exts := fetch_extensions W (Some mods_url) in
  Forall readable_refs exts ->
  i <> j ->
  exts !! i = Some e1 ->
  exts !! j = Some e2 ->
  leading_law_id Reg e1 = Some X ->
  leading_law_id Reg e2 = Some X ->
  X ∉ JS.prototype_names ->
  (forall e, e ∈ exts -> leading_bill_id Reg e <> Some X) ->
  exists cite' new,
    get_from_usgpo_mods Reg W cite (Some mods_url) = Returned (cite', new)
    /\ count_law_id X new = 1%nat.
Proof.
  intros Ht exts Hr Hij H1 H2 Hl1 Hl2 Hp Hb.
  unfold get_from_usgpo_mods. fold exts. unfold scan_mods.
  destruct (scan_counted X exts
              {| ms_cite := cite; cites := []; seen_cites := ∅; thrown := None |})
    as (Hc & Hs & Hth); auto.
  - unfold counted. simpl. rewrite bool_decide_eq_false_2 by set_solver.
    reflexivity.
  - rewrite Hth. eexists _, _. split; [reflexivity|].
    unfold counted in Hc. rewrite Hc.
    rewrite bool_decide_eq_true_2; [reflexivity|].
    apply Hs. right. exists e1. split; [|exact Hl1].
    eapply list_elem_of_lookup_2. exact H1.
Qed.

Lemma extension_law_seen (X : string) (ext : Mods.extension) (st : mods_state) :
  X ∈ seen_cites st -> X ∈ seen_cites (flow_state (extension_law Reg ext st)).
Proof.
  intros H. unfold extension_law. destruct (thrown st); [exact H|].
  destruct (Mods.law ext) as [|[elem|] ?]; try exact H.
  destruct (JS.key_in _ _); simpl; [exact H|].
  now apply elem_of_union_r.
Qed.

(** C10: in one fetch, let [X] be an identity already recorded in
    [seen_cites] when an extension block is reached. If the block leads with
    a law reference of identity [X], the block changes nothing: its bill
    reference is not turned into a citation and its [shortTitle] or
    [searchTitle] is not assigned. If its primary bill reference has
    identity [X], the block stops after its law step and the title of the
    citation stays as it was. *)
Theorem mods_duplicate_stops_block (cite : Citation) (pre : list Mods.extension)
    (ext : Mods.extension) (X : string) :
  let st := scan_mods Reg cite pre in
  X ∈ seen_cites st ->
  scan_mods Reg cite (pre ++ [ext]) = process_extension Reg st ext
  /\ (leading_law_id Reg ext = Some X ->
      process_extension Reg st ext = st)
  /\ (leading_bill_id Reg ext = Some X ->
      process_extension Reg st ext = flow_state (extension_law Reg ext st)
      /\ ms_cite (process_extension Reg st ext) = ms_cite st).
Proof.
  intros st Hin.
  assert (Ht : stat_or_law (type (ms_cite st)) = true).
  { destruct (stat_or_law (type (ms_cite st))) eqn:E; [reflexivity|].
    exfalso. unfold st, scan_mods in Hin, E. rewrite scan_type in E.
    destruct (scan_other_type pre
                {| ms_cite := cite; cites := []; seen_cites := ∅;
                   thrown := None |} E)
      as [_ Hs].
    rewrite Hs in Hin. simpl in Hin. now apply not_elem_of_empty in Hin. }
  unfold stat_or_law in Ht.
  split; [unfold scan_mods; now rewrite fold_left_app|]. split.
  - intros Hl. unfold process_extension. rewrite Ht.
    unfold leading_law_id in Hl. unfold extension_law.
    destruct (thrown st); [reflexivity|].
    destruct (Mods.law ext) as [|[elem|] rest]; try discriminate Hl.
    injection Hl as Hl. rewrite Hl, (key_in_of_own _ _ Hin). reflexivity.
  - intros Hb. unfold process_extension. rewrite Ht.
    pose proof (extension_law_cite ext st) as Hc.
    pose proof (extension_law_seen X ext st Hin) as Hin1.
    destruct (extension_law Reg ext st) as [st1|st1]; simpl in *;
      [|split; [reflexivity | exact Hc]].
    unfold leading_bill_id in Hb. unfold extension_bill.
    destruct (thrown st1); [split; [reflexivity | exact Hc]|].
    destruct (Mods.bill ext) as [|[elem|] rest]; try discriminate Hb.
    destruct (bool_decide (Mods.priority elem = Some "primary"));
      [|discriminate Hb].
    destruct (Mods.bill_type elem) as [t|]; [|discriminate Hb].
    injection Hb as Hb. rewrite Hb, (key_in_of_own _ _ Hin1).
    split; [reflexivity | exact Hc].
Qed.

End ModsResolver.

Lemma mods_duplicate_law_once_witness :
  exists cite' new,
    get_from_usgpo_mods Examples.registry Examples.mods_world
      Examples.cite_123_115 (Some Examples.mods_url) = Returned (cite', new)
    /\ count_law_id "us-law/public/111/5" new = 1%nat.
Proof.
  apply (mods_duplicate_law_once Examples.registry Examples.mods_world
           Examples.cite_123_115 Examples.mods_url "us-law/public/111/5"
           0%nat 1%nat Examples.block_a Examples.block_b).
  - reflexivity.
  - repeat constructor; intros _; eexists; reflexivity.
  - discriminate.
  - reflexivity.
  - reflexivity.
  - reflexivity.
  - reflexivity.
  - vm_compute. intros H. repeat (apply elem_of_cons in H as [H | H];
      [discriminate H|]). now apply elem_of_nil in H.
  - intros e He. simpl in He.
    apply elem_of_cons in He as [-> | He]; [discriminate|].
    apply list_elem_of_singleton in He as ->. discriminate.
Defined.

(** C6 as stated fails: the same document, fetched for a regulation
    citation, yields no new citation at all. *)
Lemma mods_duplicate_law_none_for_cfr :
  fetch_extensions Examples.mods_world (Some Examples.mods_url)
  = [Examples.block_a; Examples.block_b]
  /\ Forall readable_refs [Examples.block_a; Examples.block_b]
  /\ leading_law_id Examples.registry Examples.block_a = Some "us-law/public/111/5"
  /\ leading_law_id Examples.registry Examples.block_b = Some "us-law/public/111/5"
  /\ get_from_usgpo_mods Examples.registry Examples.mods_world Examples.cite_cfr
       (Some Examples.mods_url)
     = Returned (set_title (Some "American Recovery and Reinvestment Act of 2009")
                   Examples.cite_cfr, [])
  /\ count_law_id "us-law/public/111/5" [] = 0%nat.
Proof.
  split; [reflexivity|].
  split; [repeat constructor; intros _; eexists; reflexivity|].
  repeat split; reflexivity.
Qed.

Lemma mods_duplicate_stops_block_witness :
  process_extension Examples.registry
    (scan_mods Examples.registry Examples.cite_123_115 [Examples.block_a])
    Examples.block_b
  = scan_mods Examples.registry Examples.cite_123_115 [Examples.block_a].
Proof.
  refine (proj1 (proj2 (mods_duplicate_stops_block Examples.registry
                  Examples.cite_123_115 [Examples.block_a] Examples.block_b
                  "us-law/public/111/5" _)) eq_refl).
  apply (bool_decide_unpack _). vm_compute. exact I.
Defined.

(** The duplicate law reference of the second block suppresses its bill
    reference and its title: one law citation comes back and the title is
    that of the first block. *)
Lemma duplicate_law_suppresses_bill_and_title :
  get_from_usgpo_mods Examples.registry Examples.mods_world
    Examples.cite_123_115 (Some Examples.mods_url)
  = Returned
      (set_title (Some "Recovery Act") Examples.cite_123_115,
       [ create_parallel_cite Examples.registry
           (LawFields (JS.Num 111) "public" (JS.Num 5)) ]).
Proof. reflexivity. Qed.

(** ** The case-search resolver *)

Section CaseSearch.

Variable W : World.


End CaseSearch.



(** ** The ledger cross-reference resolver *)

Section LedgerCrossReference.

Variable Reg : Registry.

Lemma publaw_volumes_ext (W W' : World) (l : Law.t) (volumes : list Z)
    (st : Citation * list Citation) :
  (forall v, v ∈ volumes -> load_ledger W (JS.Num v) = load_ledger W' (JS.Num v)) ->
  publaw_volumes Reg W l volumes st = publaw_volumes Reg W' l volumes st.
Proof.
  revert st. induction volumes as [|v volumes IH]; intros st H; [reflexivity|].
  simpl. rewrite <- (H v) by left.
  destruct (load_ledger W (JS.Num v)); [|reflexivity].
  apply IH. intros v' Hv'. apply H. now right.
Qed.

Lemma load_ledger_ext (W W' : World) (path : string) (v : JS.value) :
  same_files_except path W W' ->
  ledger_path v <> path ->
  load_ledger W v = load_ledger W' v.
Proof.
  intros [Hy Hf] Hne. unfold load_ledger. rewrite <- (Hf _ Hne), Hy.
  reflexivity.
Qed.

(** C8: the table names congress 75 twice, first with volume 50 and then
    with volumes 51 and 52, and the table that results maps 75 to 51 and 52.
    For a public-law citation of congress 75 the resolver is the scan of
    volumes 51 and 52: its result is the same whatever the file of volume 50
    holds, and it fails when the file of volume 51 or of volume 52 cannot be
    loaded. *)
Theorem publaw_congress_75 (W : World) (cite : Citation) (l : Law.t) :
  law cite = Some l ->
  represents (Law.congress l) 75 ->
  filter (fun kv => kv.1 = 75) volume_map_props = [(75, [50]); (75, [51; 52])]
  /\ volume_map !! JS.to_string 75 = Some [51; 52]
  /\ get_from_legisworks_publaw Reg W cite
     = publaw_volumes Reg W l [51; 52] (cite, [])
  /\ (forall W',
        same_files_except (ledger_path (JS.Num 50)) W W' ->
        get_from_legisworks_publaw Reg W' cite
        = get_from_legisworks_publaw Reg W cite)
  /\ (load_ledger W (JS.Num 51) = None ->
      get_from_legisworks_publaw Reg W cite = Thrown "Error")
  /\ (forall body,
        load_ledger W (JS.Num 51) = Some body ->
        load_ledger W (JS.Num 52) = None ->
        get_from_legisworks_publaw Reg W cite = Thrown "Error").
Proof.
  intros Hl Hc.
  assert (Hkey : JS.value_to_string (Law.congress l) = "75")
    by (destruct Hc as [-> | ->]; reflexivity).
  assert (Hmap : volume_map !! "75" = Some [51; 52]) by (vm_compute; reflexivity).
  assert (E : forall W0, get_from_legisworks_publaw Reg W0 cite
                         = publaw_volumes Reg W0 l [51; 52] (cite, [])).
  { intros W0. unfold get_from_legisworks_publaw. now rewrite Hl, Hkey, Hmap. }
  split; [reflexivity|]. split; [exact Hmap|]. split; [apply E|].
  split; [|split].
  - intros W' Hsame. rewrite !E. symmetry. apply publaw_volumes_ext.
    intros v Hv. apply (load_ledger_ext W W' _ _ Hsame).
    apply elem_of_cons in Hv as [-> | Hv];
      [discriminate|apply list_elem_of_singleton in Hv as ->; discriminate].
  - intros H51. rewrite E. simpl. now rewrite H51.
  - intros body H51 H52. rewrite E. simpl. now rewrite H51, H52.
Qed.

End LedgerCrossReference.

Lemma publaw_congress_75_witness :
  get_from_legisworks_publaw Examples.registry Examples.world_75
    Examples.cite_law_75
  = publaw_volumes Examples.registry Examples.world_75 Examples.law_75_412
      [51; 52] (Examples.cite_law_75, []).
Proof.
  refine (proj1 (proj2 (proj2 (publaw_congress_75 Examples.registry
            Examples.world_75 Examples.cite_law_75 Examples.law_75_412
            eq_refl _)))).
  right. reflexivity.
Defined.

(** With the file of volume 50 unreadable, Public Law 75-412 is still found,
    in volume 52. *)
Lemma publaw_75_found_without_volume_50 :
  load_ledger Examples.world_75 (JS.Num 50) = None
  /\ get_from_legisworks_publaw Examples.registry Examples.world_75
       Examples.cite_law_75
     = Returned
         (add_law_link "legisworks" (legisworks_link Examples.item_75_1 None)
            (set_title (Some "Appropriations") Examples.cite_law_75),
          [ create_parallel_cite Examples.registry
              (StatFields (JS.Num 52) (JS.Num 3)) ]).
Proof. split; reflexivity. Qed.

(** ** add_parallel_citations *)

Section Orchestrator.

Variable Reg : Registry.

(** A sub-type that the citation does not have is passed over. *)
Lemma forEachOf_absent (W : World) (cite_type : string) (f : fetcher)
    (rest : list (string * fetcher)) (cite : Citation) (env : Env)
    (acc : list Citation) :
  get_sub cite cite_type = None ->
  forEachOf ((cite_type, f) :: rest) cite env acc = forEachOf rest cite env acc.
Proof. intros H. simpl. now rewrite H. Qed.

(** When every applicable fetcher of the table returns nothing and leaves
    the citation alone, so does the whole pass. *)
Lemma forEachOf_nothing (table : list (string * fetcher)) (cite : Citation)
    (env : Env) (acc : list Citation) :
  (forall cite_type f sub,
      (cite_type, f) ∈ table ->
      get_sub cite cite_type = Some sub ->
      f sub cite env = Returned (cite, [])) ->
  forEachOf table cite env acc = Returned (cite, acc).
Proof.
  revert acc. induction table as [|[k f] table IH]; intros acc H; [reflexivity|].
  simpl. destruct (get_sub cite k) as [sub|] eqn:E.
  - rewrite (H k f sub) by (left || assumption || exact E). rewrite app_nil_r.
    apply IH. intros k' f' sub' Hin. apply H. now right.
  - apply IH. intros k' f' sub' Hin. apply H. now right.
Qed.

Lemma get_from_usgpo_mods_no_address (W : World) (cite : Citation) :
  get_from_usgpo_mods Reg W cite None = Returned (cite, []).
Proof. reflexivity. Qed.

Lemma fully_resolved_no_mods (cite : Citation) (m : gmap string link_desc)
    (key : string) (l : link_desc) :
  fully_resolved cite ->
  m ∈ sub_links cite ->
  m !! key = Some l ->
  landing l = None /\ mods l = None.
Proof. intros Hf Hm E. destruct (Hf m key l Hm E) as (_ & ? & ?). auto. Qed.

Ltac in_sub_links H :=
  unfold sub_links; rewrite H; rewrite !elem_of_app;
  repeat (first [ left; apply list_elem_of_singleton; reflexivity | right ]).

Lemma usgpo_or_nothing_resolved (W : World) (cite : Citation)
    (m : gmap string link_desc) :
  fully_resolved cite ->
  m ∈ sub_links cite ->
  usgpo_or_nothing Reg W m cite = Returned (cite, []).
Proof.
  intros Hf Hm. unfold usgpo_or_nothing.
  destruct (m !! "usgpo") as [l|] eqn:E; [|reflexivity].
  destruct (fully_resolved_no_mods cite m "usgpo" l Hf Hm E) as [_ ->].
  apply get_from_usgpo_mods_no_address.
Qed.

(** On a fully resolved citation whose law is outside the ledger range,
    whose House check passes and whose case search is idle, one pass returns
    nothing and changes nothing. *)
Lemma add_parallel_citations_nothing (W : World) (cite : Citation) (env : Env) :
  fully_resolved cite ->
  outside_ledger_range cite ->
  house_check_passes W cite ->
  case_search_idle cite env ->
  add_parallel_citations Reg W cite env = Returned (cite, []).
Proof.
  intros Hf Hl Hh Hs. unfold add_parallel_citations.
  apply forEachOf_nothing. intros k f sub Hin Hsub.
  unfold fetchers in Hin.
  repeat (apply elem_of_cons in Hin as [[= -> ->] | Hin]);
    [..|now apply elem_of_nil in Hin]; unfold get_sub in Hsub; simpl in Hsub.
  - destruct (stat cite) as [s|] eqn:E; [|discriminate Hsub].
    injection Hsub as <-. unfold fetch_stat.
    apply usgpo_or_nothing_resolved; [exact Hf|in_sub_links E].
  - destruct (law cite) as [l|] eqn:E; [|discriminate Hsub].
    injection Hsub as <-. unfold fetch_law.
    assert (Hm : Law.links l ∈ sub_links cite) by in_sub_links E.
    destruct (Law.links l !! "usgpo") as [g|] eqn:Eg.
    { destruct (fully_resolved_no_mods cite _ _ g Hf Hm Eg) as [_ ->].
      apply get_from_usgpo_mods_no_address. }
    rewrite (Hl l E).
    destruct (Law.links l !! "govtrack") as [g|] eqn:Et; [|reflexivity].
    destruct (fully_resolved_no_mods cite _ _ g Hf Hm Et) as [-> _].
    reflexivity.
  - destruct (usc cite) as [u|] eqn:E; [|discriminate Hsub].
    injection Hsub as <-. unfold fetch_usc.
    destruct (house_html u) as [url|] eqn:Eh; [|reflexivity].
    destruct (Hh u url E Eh) as (resp & -> & ->). reflexivity.
  - destruct (cfr cite) as [c|] eqn:E; [|discriminate Hsub].
    injection Hsub as <-. unfold fetch_cfr.
    apply usgpo_or_nothing_resolved; [exact Hf|in_sub_links E].
  - destruct (fedreg cite) as [c|] eqn:E; [|discriminate Hsub].
    injection Hsub as <-. unfold fetch_fedreg.
    apply usgpo_or_nothing_resolved; [exact Hf|in_sub_links E].
  - destruct (reporter cite) as [r|] eqn:E; [|discriminate Hsub].
    unfold fetch_reporter, get_from_courtlistener_search. rewrite E.
    destruct (Reporter.links r !! "courtlistener") as [l|] eqn:Ec;
      [|reflexivity].
    rewrite (Hs r l E Ec). reflexivity.
Qed.

(** C9, amended: for a fully resolved citation (every link authoritative,
    none with a landing address, none with a metadata address) whose law
    sub-citation, if any, is of a congress outside 60..81, whose House link,
    if any, passes the existence check in both runs, and whose CourtListener
    entry, if any, meets no configured credentials, two successive runs of
    [add_parallel_citations] each return an empty list of new citations and
    leave the citation unchanged. *)
Theorem add_parallel_citations_twice (W1 W2 : World) (cite : Citation) (env : Env) :
  fully_resolved cite ->
  outside_ledger_range cite ->
  house_check_passes W1 cite ->
  house_check_passes W2 cite ->
  case_search_idle cite env ->
  exists c1 n1 c2 n2,
    add_parallel_citations Reg W1 cite env = Returned (c1, n1)
    /\ add_parallel_citations Reg W2 c1 env = Returned (c2, n2)
    /\ n1 = [] /\ n2 = [] /\ c1 = cite /\ c2 = cite.
Proof.
  intros Hf Hl H1 H2 Hs. exists cite, [], cite, [].
  rewrite (add_parallel_citations_nothing W1 cite env Hf Hl H1 Hs).
  rewrite (add_parallel_citations_nothing W2 cite env Hf Hl H2 Hs).
  auto 10.
Qed.

End Orchestrator.

(** The example citation has a GovInfo link on its law and a House link on
    its section; both are authoritative and have neither a landing nor a
    metadata address. *)
Lemma cite_resolved_links :
  sub_links Examples.cite_resolved
  = [ {[ "usgpo" := Examples.pdf_link ]}; {[ "house" := Examples.house_link ]} ].
Proof. reflexivity. Qed.

Lemma add_parallel_citations_twice_witness :
  exists c1 n1 c2 n2,
    add_parallel_citations Examples.registry Examples.found_world
      Examples.cite_resolved Examples.env_cl = Returned (c1, n1)
    /\ add_parallel_citations Examples.registry Examples.found_world c1
         Examples.env_cl = Returned (c2, n2)
    /\ n1 = [] /\ n2 = []
    /\ c1 = Examples.cite_resolved /\ c2 = Examples.cite_resolved.
Proof.
  apply (add_parallel_citations_twice Examples.registry Examples.found_world
           Examples.found_world Examples.cite_resolved Examples.env_cl).
  - intros m key l Hm Hl. rewrite cite_resolved_links in Hm.
    apply elem_of_cons in Hm as [-> | Hm];
      [|apply list_elem_of_singleton in Hm as ->];
      apply lookup_singleton_Some in Hl as [_ <-]; repeat split; reflexivity.
  - intros l [= <-]. reflexivity.
  - intros u url [= <-] [= <-]. eexists. split; reflexivity.
  - intros u url [= <-] [= <-]. eexists. split; reflexivity.
  - intros r l H. discriminate H.
Defined.

(** C9 as stated fails: Public Law 70-1, cited with one authoritative link to
    a PDF, is fully resolved, yet each run looks it up in the ledger of
    volume 45, returns the parallel statute citation 45 Stat. 1, and the
    first run also sets the title and adds a link. *)
Lemma add_parallel_citations_not_idempotent :
  fully_resolved Examples.cite_law_70_linked
  /\ add_parallel_citations Examples.registry Examples.world_70
       Examples.cite_law_70_linked Examples.env_none
     = Returned
         (add_law_link "legisworks" (legisworks_link Examples.item_70_1 None)
            (set_title (Some "An Act") Examples.cite_law_70_linked),
          [ create_parallel_cite Examples.registry
              (StatFields (JS.Num 45) (JS.Num 1)) ])
  /\ add_parallel_citations Examples.registry Examples.world_70
       (add_law_link "legisworks" (legisworks_link Examples.item_70_1 None)
          (set_title (Some "An Act") Examples.cite_law_70_linked))
       Examples.env_none
     = Returned
         (add_law_link "legisworks" (legisworks_link Examples.item_70_1 None)
            (set_title (Some "An Act") Examples.cite_law_70_linked),
          [ create_parallel_cite Examples.registry
              (StatFields (JS.Num 45) (JS.Num 1)) ])
  /\ title (add_law_link "legisworks" (legisworks_link Examples.item_70_1 None)
              (set_title (Some "An Act") Examples.cite_law_70_linked))
     <> title Examples.cite_law_70_linked.
Proof.
  split.
  { intros m key l Hm Hl.
    apply list_elem_of_singleton in Hm as ->.
    unfold Examples.law_70_linked in Hl. simpl in Hl.
    apply lookup_singleton_Some in Hl as [_ <-]. repeat split; reflexivity. }
  split; [vm_compute; reflexivity|].
  split; [vm_compute; reflexivity|].
  discriminate.
Qed.

(** C2 fails on the code: a US Code citation has a House link and the
    request for it fails, so that [response] is undefined. The fetcher reads
    [response.statusCode] without looking at [error]; the TypeError escapes
    and [add_parallel_citations] never calls back, whereas the claim has the
    resolver contribute an empty list. *)
Theorem usc_transport_failure_escapes :
  get_sub Examples.cite_usc "usc"
  = Some (SubUsc (Usc.Build_t (Some {[ "house" := Examples.house_link ]})))
  /\ request_get Examples.offline_world
       {| uri := "https://uscode.house.gov/view.xhtml?req=(title:5%20section:552)";
          followRedirect := false; auth := None |}
     = {| error := true; response := None; body := None |}
  /\ add_parallel_citations Examples.registry Examples.offline_world
       Examples.cite_usc Examples.env_none
     = Thrown "TypeError".
Proof. repeat split; vm_compute; reflexivity. Qed.

(** ** Ledger file names *)

Section LedgerFiles.

Import JS JSFacts.

Lemma length_append (a b : string) :
  String.length (a +:+ b) = (String.length a + String.length b)%nat.
Proof. induction a as [|c a IH]; simpl; [reflexivity | now rewrite IH]. Qed.

Lemma append_cancel_r (a b c : string) : a +:+ c = b +:+ c -> a = b.
Proof.
  revert b. induction a as [|x a IH]; intros [|y b] H.
  - reflexivity.
  - apply (f_equal String.length) in H.
    change (String y b +:+ c) with (String y (b +:+ c)) in H.
    cbn [String.length] in H. rewrite !length_append in H.
    cbn [String.length] in H. lia.
  - apply (f_equal String.length) in H.
    change (String x a +:+ c) with (String x (a +:+ c)) in H.
    cbn [String.length] in H. rewrite !length_append in H.
    cbn [String.length] in H. lia.
  - change (String x (a +:+ c) = String y (b +:+ c)) in H.
    injection H as -> H. f_equal. now apply IH.
Qed.

Lemma repeat_zero_succ (k : nat) :
  repeat_str (S k) "0" = String "0" (repeat_str k "0").
Proof. reflexivity. Qed.

Lemma length_repeat_zero (k : nat) : String.length (repeat_str k "0") = k.
Proof.
  induction k as [|k IH]; [reflexivity|].
  rewrite repeat_zero_succ. cbn [String.length]. now rewrite IH.
Qed.

Lemma digits_acc_zeros (k : nat) (s : string) :
  digits_acc digit_of 10 (repeat_str k "0" +:+ s) 0 = digits_acc digit_of 10 s 0.
Proof.
  induction k as [|k IH]; [reflexivity|].
  rewrite repeat_zero_succ.
  change (String "0" (repeat_str k "0") +:+ s)
    with (String "0" (repeat_str k "0" +:+ s)).
  rewrite (digits_acc_step "0" 0) by reflexivity. exact IH.
Qed.

Lemma digits_only_zeros (k : nat) (s : string) :
  digits_only s -> digits_only (repeat_str k "0" +:+ s).
Proof.
  intros H. induction k as [|k IH]; [exact H|].
  rewrite repeat_zero_succ.
  change (String "0" (repeat_str k "0") +:+ s)
    with (String "0" (repeat_str k "0" +:+ s)).
  split; [eexists; reflexivity | exact IH].
Qed.

(** The decimal text of a non-negative integer. *)
Lemma to_string_nonneg (v : Z) :
  0 <= v ->
  exists c s,
    to_string v = String c s
    /\ digits_only (String c s)
    /\ fst (digits_acc digit_of 10 (String c s) 0) = v.
Proof.
  intros Hv. destruct v as [|p|p]; [| |lia].
  - exists "0"%char, "". repeat split. eexists. reflexivity.
  - rewrite to_string_pos. apply uint_of_pos_string.
Qed.

Lemma pad_reads_back (v : Z) (width : nat) :
  0 <= v -> to_number (pad (Num v) width None) = Some v.
Proof.
  intros Hv. unfold pad. simpl.
  destruct (width <=? String.length (to_string v))%nat;
    [apply to_number_to_string|].
  destruct (to_string_nonneg v Hv) as (c & s & Es & Hd & Hval).
  rewrite Es.
  pose proof (digits_only_zeros (width - String.length (String c s))
                (String c s) Hd) as Hz.
  pose proof (digits_acc_zeros (width - String.length (String c s))
                (String c s)) as Hacc.
  destruct (repeat_str (width - String.length (String c s)) "0"
            +:+ String c s) as [|c' s'] eqn:Ep.
  - destruct (width - String.length (String c s))%nat; discriminate Ep.
  - rewrite to_number_unsigned by exact Hz. now rewrite Hacc, Hval.
Qed.

(** X1: [pad] of a non-negative volume number has the length of the longer
    of [width] and the decimal text, and reads back as the number. *)
Theorem pad_volume (v : Z) (width : nat) :
  0 <= v ->
  String.length (pad (Num v) width None)
  = Nat.max width (String.length (to_string v))
  /\ to_number (pad (Num v) width None) = Some v.
Proof.
  intros Hv. split; [|now apply pad_reads_back].
  unfold pad. simpl.
  destruct (width <=? String.length (to_string v))%nat eqn:E.
  - apply Nat.leb_le in E. lia.
  - apply Nat.leb_gt in E. rewrite length_append, length_repeat_zero. lia.
Qed.

(** X2: distinct non-negative volumes have distinct ledger files. *)
Theorem ledger_path_inj (a b : Z) :
  0 <= a -> 0 <= b ->
  ledger_path (Num a) = ledger_path (Num b) -> a = b.
Proof.
  intros Ha Hb H. unfold ledger_path in H.
  apply (inj (String.app _)) in H. apply append_cancel_r in H.
  pose proof (pad_reads_back a 3 Ha) as Pa.
  pose proof (pad_reads_back b 3 Hb) as Pb.
  rewrite H in Pa. congruence.
Qed.

End LedgerFiles.

Lemma pad_volume_witness :
  String.length (pad (JS.Num 7) 3 None)
  = Nat.max 3 (String.length (JS.to_string 7))
  /\ JS.to_number (pad (JS.Num 7) 3 None) = Some 7.
Proof. apply (pad_volume 7 3). lia. Defined.

Lemma ledger_path_inj_witness : 43 = 43.
Proof. apply (ledger_path_inj 43 43); [lia | lia | reflexivity]. Defined.

(** ** The ledger cross-reference as a filter *)

Section LedgerScan.

Import JS JSFacts.

Variable Reg : Registry.
Variable W : World.

Lemma to_string_not_undefined (z : Z) : to_string z <> "undefined".
Proof.
  intros H. pose proof (parseInt_to_string z) as P. rewrite H in P.
  discriminate P.
Qed.

Lemma loose_eq_opt_represents (v : value) (z : Z) (x : option Z) :
  represents v z -> str_loose_eq (to_string_opt x) v = true <-> x = Some z.
Proof.
  intros Hv. destruct x as [y|]; simpl.
  - rewrite (loose_eq_represents v z y Hv). split; congruence.
  - split; [|discriminate]. destruct Hv as [-> | ->]; simpl.
    + discriminate.
    + rewrite bool_decide_eq_true. intros H. symmetry in H.
      now apply to_string_not_undefined in H.
Qed.

(** X3: a ledger row passes the four guards of the cross-reference exactly
    when its congress and number are those of the law, the law is not
    private, and the row is a public law if the law is public. *)
Theorem publaw_selected_iff (l : Law.t) (item : Item.t) (congress number : Z) :
  represents (Law.congress l) congress ->
  represents (Law.number l) number ->
  publaw_selected l item = true <->
  Item.congress item = Some congress
  /\ Item.number item = Some number
  /\ (Law.type l = "public" -> Item.type item = Some "publaw")
  /\ Law.type l <> "private".
Proof.
  intros Hc Hn. unfold publaw_selected.
  pose proof (loose_eq_opt_represents _ _ (Item.congress item) Hc) as Ec.
  pose proof (loose_eq_opt_represents _ _ (Item.number item) Hn) as En.
  destruct (str_loose_eq (to_string_opt (Item.congress item)) (Law.congress l));
    simpl; [|split; [discriminate | intros [H _]; apply Ec in H; discriminate H]].
  destruct (str_loose_eq (to_string_opt (Item.number item)) (Law.number l));
    simpl; [|split; [discriminate | intros (_ & H & _); apply En in H; discriminate H]].
  destruct (decide (Law.type l = "public")) as [Hp|Hp].
  - rewrite (bool_decide_eq_true_2 _ Hp). simpl.
    destruct (decide (Item.type item = Some "publaw")) as [Ht|Ht].
    + rewrite (bool_decide_eq_true_2 _ Ht). simpl.
      rewrite bool_decide_eq_false_2 by (rewrite Hp; discriminate).
      split; [intros _ | reflexivity].
      repeat split; [now apply Ec | now apply En | auto | rewrite Hp; discriminate].
    + rewrite (bool_decide_eq_false_2 _ Ht). simpl.
      split; [discriminate|]. intros (_ & _ & H & _). now specialize (H Hp).
  - rewrite (bool_decide_eq_false_2 _ Hp). simpl.
    destruct (decide (Law.type l = "private")) as [Hv|Hv].
    + rewrite (bool_decide_eq_true_2 _ Hv).
      split; [discriminate|]. intros (_ & _ & _ & H). contradiction.
    + rewrite (bool_decide_eq_false_2 _ Hv).
      split; [intros _ | reflexivity].
      repeat split; [now apply Ec | now apply En | contradiction | exact Hv].
Qed.

Lemma publaw_fold (l : Law.t) (body : list Item.t) (st : Citation * list Citation) :
  fold_left (publaw_item Reg l) body st
  = (fold_left publaw_update (filter (fun i => publaw_selected l i = true) body) st.1,
     st.2 ++ map (publaw_stat Reg) (filter (fun i => publaw_selected l i = true) body)).
Proof.
  revert st. induction body as [|item body IH]; intros [c n].
  - simpl. now rewrite app_nil_r.
  - cbn [fold_left]. rewrite IH, filter_cons. unfold publaw_item.
    destruct (decide (publaw_selected l item = true)) as [E|E].
    + rewrite E. cbn [fst snd fold_left map]. now rewrite <- app_assoc.
    + apply not_true_is_false in E. rewrite E. reflexivity.
Qed.

Lemma publaw_volumes_scan (l : Law.t) (volumes : list Z) (bodies : list (list Item.t))
    (st : Citation * list Citation) :
  Forall2 (fun v b => load_ledger W (Num v) = Some b) volumes bodies ->
  publaw_volumes Reg W l volumes st
  = Returned
      (fold_left publaw_update
         (filter (fun i => publaw_selected l i = true) (concat bodies)) st.1,
       st.2 ++ map (publaw_stat Reg)
                 (filter (fun i => publaw_selected l i = true) (concat bodies))).
Proof.
  intros H. revert st. induction H as [|v b volumes bodies Hv _ IH]; intros st.
  - simpl. now rewrite app_nil_r, <- surjective_pairing.
  - cbn [publaw_volumes concat]. rewrite Hv, IH, publaw_fold.
    cbn [fst snd]. rewrite filter_app, fold_left_app, map_app, app_assoc.
    reflexivity.
Qed.

(** X4: when the ledger files of the law's congress load, the two nested
    loops of the cross-reference amount to one filter over the rows of those
    files in order: the new citations are the statute citations of the rows
    that pass the guards, and the citation takes the title and the link of
    each such row in turn, so those of the last one remain. *)
Theorem get_from_legisworks_publaw_scan (cite : Citation) (l : Law.t)
    (volumes : list Z) (bodies : list (list Item.t)) :
  law cite = Some l ->
  volume_map !! value_to_string (Law.congress l) = Some volumes ->
  Forall2 (fun v b => load_ledger W (Num v) = Some b) volumes bodies ->
  get_from_legisworks_publaw Reg W cite
  = Returned
      (fold_left publaw_update
         (filter (fun i => publaw_selected l i = true) (concat bodies)) cite,
       map (publaw_stat Reg)
         (filter (fun i => publaw_selected l i = true) (concat bodies))).
Proof.
  intros Hl Hm Hb. unfold get_from_legisworks_publaw. rewrite Hl, Hm.
  now rewrite (publaw_volumes_scan l volumes bodies (cite, []) Hb).
Qed.

(** X5: a private law is never matched: when the ledger files of its
    congress load, the cross-reference returns no citation and leaves the
    citation as it was. *)
Theorem get_from_legisworks_publaw_private (cite : Citation) (l : Law.t)
    (volumes : list Z) (bodies : list (list Item.t)) :
  law cite = Some l ->
  Law.type l = "private" ->
  volume_map !! value_to_string (Law.congress l) = Some volumes ->
  Forall2 (fun v b => load_ledger W (Num v) = Some b) volumes bodies ->
  get_from_legisworks_publaw Reg W cite = Returned (cite, []).
Proof.
  intros Hl Ht Hm Hb. unfold get_from_legisworks_publaw. rewrite Hl, Hm.
  rewrite (publaw_volumes_scan l volumes bodies (cite, []) Hb).
  assert (E : filter (fun i => publaw_selected l i = true) (concat bodies) = []).
  { apply filter_none. intros item _. unfold publaw_selected. rewrite Ht.
    destruct (str_loose_eq _ _); [|reflexivity].
    destruct (str_loose_eq _ _); reflexivity. }
  rewrite E. reflexivity.
Qed.

End LedgerScan.

Lemma publaw_selected_iff_witness :
  publaw_selected Examples.law_75_412 Examples.item_75_1 = true <->
  Item.congress Examples.item_75_1 = Some 75
  /\ Item.number Examples.item_75_1 = Some 412
  /\ (Law.type Examples.law_75_412 = "public" ->
      Item.type Examples.item_75_1 = Some "publaw")
  /\ Law.type Examples.law_75_412 <> "private".
Proof.
  apply (publaw_selected_iff Examples.law_75_412 Examples.item_75_1 75 412).
  - right. reflexivity.
  - right. reflexivity.
Defined.

Lemma get_from_legisworks_publaw_scan_witness :
  get_from_legisworks_publaw Examples.registry Examples.world_75
    Examples.cite_law_75
  = Returned
      (fold_left publaw_update
         (filter (fun i => publaw_selected Examples.law_75_412 i = true)
            (concat [[]; [Examples.item_75_1]]))
         Examples.cite_law_75,
       map (publaw_stat Examples.registry)
         (filter (fun i => publaw_selected Examples.law_75_412 i = true)
            (concat [[]; [Examples.item_75_1]]))).
Proof.
  apply (get_from_legisworks_publaw_scan Examples.registry Examples.world_75
           Examples.cite_law_75 Examples.law_75_412 [51; 52]
           [[]; [Examples.item_75_1]]).
  - reflexivity.
  - vm_compute. reflexivity.
  - repeat constructor.
Defined.

Lemma get_from_legisworks_publaw_private_witness :
  get_from_legisworks_publaw Examples.registry Examples.world_75
    Examples.cite_private_75
  = Returned (Examples.cite_private_75, []).
Proof.
  apply (get_from_legisworks_publaw_private Examples.registry Examples.world_75
           Examples.cite_private_75 Examples.law_private_75 [51; 52]
           [[]; [Examples.item_75_1]]).
  - reflexivity.
  - reflexivity.
  - vm_compute. reflexivity.
  - repeat constructor.
Defined.

(** ** The congress-to-volume table *)

Section VolumeTable.

Import JS JSFacts.

(** X6: the table has an entry exactly for the congresses 60 to 81, the
    range that [fetchers.law] sends to the cross-reference, and every volume
    it names lies between 35 and 64 and is not 50. *)
Theorem volume_map_domain :
  (forall c : Z, is_Some (volume_map !! to_string c) <-> 60 <= c <= 81)
  /\ (forall key volumes v,
        volume_map !! key = Some volumes ->
        v ∈ volumes ->
        35 <= v <= 64 /\ v <> 50).
Proof.
  split.
  - intros c. split.
    + intros Hc.
      assert (Hkeys : map_Forall
                (fun k (_ : list Z) => k ∈ map to_string (seqZ 60 22)) volume_map)
        by (apply (bool_decide_unpack _); vm_compute; exact I).
      destruct Hc as [vols Hv]. specialize (Hkeys _ _ Hv). cbv beta in Hkeys.
      apply list_elem_of_In, in_map_iff in Hkeys as (c' & E & Hin).
      apply to_string_inj in E as ->.
      apply list_elem_of_In, elem_of_seqZ in Hin. lia.
    + intros Hc.
      assert (Hall : Forall (fun c => is_Some (volume_map !! to_string c))
                       (seqZ 60 22))
        by (apply (bool_decide_unpack _); vm_compute; exact I).
      rewrite Forall_forall in Hall. apply Hall. apply elem_of_seqZ. lia.
  - intros key volumes v Hk Hv.
    assert (Hvols : map_Forall
              (fun (_ : string) vols => Forall (fun v => 35 <= v <= 64 /\ v <> 50) vols)
              volume_map)
      by (apply (bool_decide_unpack _); vm_compute; exact I).
    specialize (Hvols _ _ Hk). cbv beta in Hvols.
    rewrite Forall_forall in Hvols. now apply Hvols.
Qed.

End VolumeTable.

(** ** What the candidates of a query look like *)

Section CandidateShape.

Import JS JSFacts.

Variable Reg : Registry.
Variable W : World.

Lemma candidate_stat (s : Stat.t) (n : nat) (item : Item.t) :
  stat (candidate Reg s n item)
  = Some (Stat.Build_t (Stat.volume s) (Stat.page s)
            (Some (citator_id (types Reg "stat")
                     (StatFields (Stat.volume s) (Stat.page s))))
            (<["legisworks" :=
                 legisworks_link item
                   (if is_start_page s item then None
                    else Some (internal_page_note item))]>
               (getLinksForCitation Reg "stat"
                  (StatFields (Stat.volume s) (Stat.page s))
                  (citator_id (types Reg "stat")
                     (StatFields (Stat.volume s) (Stat.page s)))))).
Proof.
  unfold candidate.
  destruct (num_ge (Item.congress item) (Some 38)
            && bool_decide (Item.type item = Some "publaw"));
    destruct (1 <? n)%nat; reflexivity.
Qed.

Lemma selected_candidate (s : Stat.t) (v p : Z) (n : nat) (body : list Item.t)
    (item : Item.t) :
  represents (Stat.volume s) v ->
  represents (Stat.page s) p ->
  item ∈ body ->
  selected s item = true ->
  candidate_of_query s v p body (candidate Reg s n item).
Proof.
  intros Hv Hp Hin Hsel. unfold selected in Hsel.
  pose proof (loose_eq_represents _ _ (Item.volume item) Hv) as Ev.
  pose proof (loose_eq_represents _ _ (Item.page item) Hp) as Es.
  pose proof (spans_page_iff s item p Hp) as Er.
  fold (is_start_page s item) in Es.
  destruct (str_loose_eq (to_string (Item.volume item)) (Stat.volume s));
    [|discriminate Hsel].
  assert (Hvol : Item.volume item = v) by now apply Ev.
  eexists item, _, _. rewrite candidate_citation, candidate_stat, Hvol.
  split; [exact Hin|]. split; [reflexivity|].
  split; [|split; [reflexivity|]]; [| split; [reflexivity|]].
  - simpl in Hsel. destruct (is_start_page s item).
    + assert (Item.page item = p) by now apply Es. lia.
    + destruct (spans_page s item); [|discriminate Hsel].
      destruct (proj1 Er eq_refl) as (np & _ & H). lia.
  - cbn [Stat.volume Stat.page Stat.links]. split; [reflexivity|].
    split; [reflexivity|]. split; [apply lookup_insert_eq|].
    split; [reflexivity|]. cbn [legisworks_link source note].
    destruct (is_start_page s item).
    + split; [intros _; now apply Es | reflexivity].
    + split; [discriminate|]. intros H. apply Es in H. discriminate H.
Qed.

(** X7: for a query that holds its volume [v], at most 64, and its page [p]
    as numbers or as their canonical decimal text, every candidate that
    [explode] returns comes from a ledger row of volume [v] whose start page
    is at most [p]; its citation string is that volume and start page;
    it keeps the volume and page of the query in its statute payload; and
    its Legisworks link, never authoritative, carries the internal-page note
    exactly when the row starts before [p]. *)
Theorem explode_candidates_of_query (cite : Citation) (s : Stat.t) (env : Env)
    (body : list Item.t) (v p : Z) :
  stat cite = Some s ->
  represents (Stat.volume s) v ->
  represents (Stat.page s) p ->
  v <= 64 ->
  load_ledger W (Stat.volume s) = Some body ->
  exists result,
    explode Reg W cite env = Returned result
    /\ Forall (candidate_of_query s v p body) result.
Proof.
  intros Hs Hv Hp Hle Hl.
  assert (Hnum : num_le (value_to_number (Stat.volume s)) (Some 64) = true).
  { destruct Hv as [-> | ->]; simpl; [|rewrite to_number_to_string];
      now apply Z.leb_le. }
  rewrite (explode_ledger Reg W cite s env body Hs Hnum Hl).
  eexists. split; [reflexivity|].
  apply Forall_rev, Forall_forall. intros c Hc.
  apply list_elem_of_In, in_map_iff in Hc as (item & <- & Hin).
  apply list_elem_of_In, list_elem_of_filter in Hin as [Hsel Hin].
  now apply selected_candidate.
Qed.

End CandidateShape.

Lemma explode_candidates_of_query_witness :
  exists result,
    explode Examples.registry Examples.world_43_two Examples.cite_43_25
      Examples.env_none = Returned result
    /\ Forall (candidate_of_query Examples.stat_43_25 43 25
                 [Examples.item_long; Examples.item_inner]) result.
Proof.
  apply (explode_candidates_of_query Examples.registry Examples.world_43_two
           Examples.cite_43_25 Examples.stat_43_25 Examples.env_none
           [Examples.item_long; Examples.item_inner] 43 25).
  - reflexivity.
  - right. reflexivity.
  - right. reflexivity.
  - lia.
  - reflexivity.
Defined.

(** ** Invariants of the metadata-document resolver *)

Section ModsInvariants.

Variable Reg : Registry.
Variable W : World.

Lemma key_in_false (k : string) (own : gset string) :
  JS.key_in k own = false -> k ∉ own.
Proof.
  unfold JS.key_in. rewrite orb_false_iff, bool_decide_eq_false. tauto.
Qed.

Lemma keys_recorded_record (k : string) (c : Citation) (st : mods_state) :
  cite_key c = k ->
  k ∉ seen_cites st ->
  keys_recorded st ->
  keys_recorded (record_cite k c st).
Proof.
  intros Hk Hfresh [Hnd Hseen]. unfold keys_recorded, record_cite. simpl.
  rewrite map_app. simpl. rewrite Hk. split.
  - apply NoDup_app. split; [exact Hnd|]. split.
    + intros x Hx Hx'. apply list_elem_of_singleton in Hx'. subst x.
      apply Hfresh. now apply Hseen.
    + apply NoDup_singleton.
  - intros x. rewrite elem_of_union, elem_of_singleton, elem_of_app,
      list_elem_of_singleton, Hseen. tauto.
Qed.

Lemma extension_law_keys (ext : Mods.extension) (st : mods_state) :
  keys_recorded st -> keys_recorded (flow_state (extension_law Reg ext st)).
Proof.
  intros H. unfold extension_law. destruct (thrown st); [exact H|].
  destruct (Mods.law ext) as [|[elem|] rest]; [exact H | | exact H].
  destruct (JS.key_in _ _) eqn:E; simpl; [exact H|].
  apply keys_recorded_record; [reflexivity | now apply key_in_false | exact H].
Qed.

Lemma extension_bill_keys (ext : Mods.extension) (st : mods_state) :
  keys_recorded st -> keys_recorded (flow_state (extension_bill Reg ext st)).
Proof.
  intros H. unfold extension_bill. destruct (thrown st); [exact H|].
  destruct (Mods.bill ext) as [|[elem|] rest]; [exact H | | exact H].
  destruct (bool_decide _); [|exact H].
  destruct (Mods.bill_type elem) as [t|]; [|exact H].
  destruct (JS.key_in _ _) eqn:E; simpl; [exact H|].
  apply keys_recorded_record; [reflexivity | now apply key_in_false | exact H].
Qed.

Lemma process_extension_keys (st : mods_state) (ext : Mods.extension) :
  keys_recorded st -> keys_recorded (process_extension Reg st ext).
Proof.
  intros H. unfold process_extension.
  assert (Ht : forall st', keys_recorded st' ->
                           keys_recorded (extension_title ext st')).
  { intros st' H'. unfold keys_recorded.
    destruct (extension_title_fields ext st') as (-> & -> & _). exact H'. }
  destruct (bool_decide _ || bool_decide _); [|now apply Ht].
  pose proof (extension_law_keys ext st H) as H1.
  destruct (extension_law Reg ext st) as [st1|st1]; simpl in H1; [|exact H1].
  pose proof (extension_bill_keys ext st1 H1) as H2.
  destruct (extension_bill Reg ext st1) as [st2|st2]; simpl in H2; [|exact H2].
  now apply Ht.
Qed.

Lemma scan_keys (exts : list Mods.extension) (st : mods_state) :
  keys_recorded st -> keys_recorded (fold_left (process_extension Reg) exts st).
Proof.
  revert st. induction exts as [|e exts IH]; intros st H; [exact H|].
  simpl. apply IH. now apply process_extension_keys.
Qed.

(** X8: whatever the reply, the document and the citation, the new
    citations that the metadata-document resolver collects in one fetch have
    pairwise distinct identities, and so have those it calls back with. *)
Theorem mods_new_citations_distinct (cite : Citation) (mods_url : option string) :
  NoDup (map cite_key (cites (scan_mods Reg cite (fetch_extensions W mods_url))))
  /\ forall cite' new,
       get_from_usgpo_mods Reg W cite mods_url = Returned (cite', new) ->
       NoDup (map cite_key new).
Proof.
  assert (H : NoDup (map cite_key
                 (cites (scan_mods Reg cite (fetch_extensions W mods_url))))).
  { unfold scan_mods. apply scan_keys. split; [constructor|].
    intros k. simpl. split; intros H.
    - now apply not_elem_of_empty in H.
    - now apply elem_of_nil in H. }
  split; [exact H|]. intros cite' new E.
  unfold get_from_usgpo_mods in E.
  destruct (thrown _); [discriminate E|]. injection E as _ <-. exact H.
Qed.

Lemma set_title_title (c : Citation) : set_title (title c) c = c.
Proof. now destruct c. Qed.

Lemma set_title_twice (t t' : option string) (c : Citation) :
  set_title t (set_title t' c) = set_title t c.
Proof. reflexivity. Qed.

Lemma process_extension_title_only (st : mods_state) (ext : Mods.extension)
    (cite : Citation) :
  ms_cite st = set_title (title (ms_cite st)) cite ->
  ms_cite (process_extension Reg st ext)
  = set_title (title (ms_cite (process_extension Reg st ext))) cite.
Proof.
  intros H.
  assert (Ht : forall st', ms_cite st' = ms_cite st ->
             ms_cite (extension_title ext st')
             = set_title (title (ms_cite (extension_title ext st'))) cite).
  { intros st' E. unfold extension_title.
    destruct (thrown st'); [rewrite E; exact H|].
    destruct (Mods.shortTitle ext) as [|[t|[t|]] ?];
      [destruct (Mods.searchTitle ext)|..]; simpl; rewrite ?E;
      try exact H; rewrite H; reflexivity. }
  unfold process_extension.
  destruct (bool_decide _ || bool_decide _); [|now apply Ht].
  pose proof (extension_law_cite Reg ext st) as H1.
  destruct (extension_law Reg ext st) as [st1|st1]; simpl in H1;
    [|now rewrite H1].
  pose proof (extension_bill_cite Reg ext st1) as H2.
  destruct (extension_bill Reg ext st1) as [st2|st2]; simpl in H2.
  - apply Ht. congruence.
  - rewrite H2, H1. exact H.
Qed.

Lemma scan_title_only (exts : list Mods.extension) (st : mods_state)
    (cite : Citation) :
  ms_cite st = set_title (title (ms_cite st)) cite ->
  ms_cite (fold_left (process_extension Reg) exts st)
  = set_title (title (ms_cite (fold_left (process_extension Reg) exts st))) cite.
Proof.
  revert st. induction exts as [|e exts IH]; intros st H; [exact H|].
  simpl. apply IH. now apply process_extension_title_only.
Qed.

Lemma scan_readable (exts : list Mods.extension) (st : mods_state) :
  thrown st = None ->
  Forall readable_refs exts ->
  thrown (fold_left (process_extension Reg) exts st) = None.
Proof.
  revert st. induction exts as [|e exts IH]; intros st Hth Hr; [exact Hth|].
  simpl. apply Forall_cons in Hr as [[Hl Hb] Hr]. apply IH; [|exact Hr].
  unfold process_extension.
  destruct (bool_decide _ || bool_decide _);
    [|now rewrite extension_title_thrown].
  unfold extension_law. rewrite Hth.
  assert (Hbill : forall st1, thrown st1 = None ->
            thrown match extension_bill Reg e st1 with
                   | Next st' => extension_title e st'
                   | Return st' => st'
                   end = None).
  { intros st1 H1. unfold extension_bill. rewrite H1.
    destruct (Mods.bill e) as [|[elem|] rest];
      [now rewrite extension_title_thrown | | contradiction].
    destruct (bool_decide (Mods.priority elem = Some "primary")) eqn:Ep;
      [|now rewrite extension_title_thrown].
    apply bool_decide_eq_true in Ep. destruct (Hb Ep) as [t ->].
    destruct (JS.key_in _ _); [exact H1|].
    now rewrite extension_title_thrown. }
  destruct (Mods.law e) as [|[elem|] rest]; [now apply Hbill | | contradiction].
  destruct (JS.key_in _ _); [exact Hth|]. now apply Hbill.
Qed.

(** X9: for a citation that is neither a statute nor a law, or a document
    whose leading law and bill references can all be read, the
    metadata-document resolver calls back, whatever the reply; the citation
    it leaves differs from the one it was given in [title] at most; and for
    a citation that is neither a statute nor a law it returns no new
    citation. *)
Theorem get_from_usgpo_mods_title_only (cite : Citation)
    (mods_url : option string) :
  stat_or_law (type cite) = false
  \/ Forall readable_refs (fetch_extensions W mods_url) ->
  exists cite' new,
    get_from_usgpo_mods Reg W cite mods_url = Returned (cite', new)
    /\ cite' = set_title (title cite') cite
    /\ (stat_or_law (type cite) = false -> new = []).
Proof.
  intros Hok. unfold get_from_usgpo_mods.
  set (init := {| ms_cite := cite; cites := []; seen_cites := ∅;
                  thrown := None |}).
  assert (Hth : thrown (scan_mods Reg cite (fetch_extensions W mods_url)) = None).
  { unfold scan_mods. fold init. destruct Hok as [Ht | Hr].
    - now rewrite (scan_other_type_thrown Reg _ init Ht).
    - now apply scan_readable. }
  rewrite Hth. eexists _, _. split; [reflexivity|]. split.
  - unfold scan_mods. apply scan_title_only. simpl.
    symmetry. apply set_title_title.
  - intros Ht. unfold scan_mods. fold init.
    destruct (scan_other_type Reg (fetch_extensions W mods_url) init Ht)
      as [-> _].
    reflexivity.
Qed.

End ModsInvariants.

Lemma mods_new_citations_distinct_witness :
  NoDup (map cite_key
           [ create_parallel_cite Examples.registry
               (LawFields (JS.Num 111) "public" (JS.Num 5)) ]).
Proof.
  exact (proj2 (mods_new_citations_distinct Examples.registry
                  Examples.mods_world Examples.cite_123_115
                  (Some Examples.mods_url)) _ _ eq_refl).
Defined.

Lemma get_from_usgpo_mods_title_only_witness :
  exists cite' new,
    get_from_usgpo_mods Examples.registry Examples.mods_world
      Examples.cite_123_115 (Some Examples.mods_url) = Returned (cite', new)
    /\ cite' = set_title (title cite') Examples.cite_123_115
    /\ (stat_or_law (type Examples.cite_123_115) = false -> new = []).
Proof.
  apply (get_from_usgpo_mods_title_only Examples.registry Examples.mods_world
           Examples.cite_123_115 (Some Examples.mods_url)).
  right. repeat constructor; intros _; eexists; reflexivity.
Defined.

(** ** What a resolution pass never changes *)

Section Frame.

Variable Reg : Registry.
Variable W : World.

Lemma same_subject_refl (c : Citation) : same_subject c c.
Proof. unfold same_subject. tauto. Qed.

Lemma same_subject_trans (a b c : Citation) :
  same_subject a b -> same_subject b c -> same_subject a c.
Proof.
  unfold same_subject.
  intros (A1 & A2 & A3 & A4 & A5 & A6 & A7 & A8 & A9 & A10)
         (B1 & B2 & B3 & B4 & B5 & B6 & B7 & B8 & B9 & B10).
  repeat split; try congruence; tauto.
Qed.

Lemma same_subject_set_title (t : option string) (c : Citation) :
  same_subject c (set_title t c).
Proof. unfold same_subject. simpl. tauto. Qed.

Lemma same_subject_publaw_update (c : Citation) (item : Item.t) :
  same_subject c (publaw_update c item).
Proof.
  unfold publaw_update, add_law_link. simpl.
  destruct (law c) as [l|] eqn:E; unfold same_subject; simpl; rewrite ?E;
    simpl; tauto.
Qed.

Lemma same_subject_publaw_rows (items : list Item.t) (c : Citation) :
  same_subject c (fold_left publaw_update items c).
Proof.
  revert c. induction items as [|item items IH]; intros c;
    [apply same_subject_refl|].
  simpl. eapply same_subject_trans; [apply same_subject_publaw_update | apply IH].
Qed.

Lemma publaw_volumes_same_subject (l : Law.t) (volumes : list Z)
    (st st' : Citation * list Citation) :
  publaw_volumes Reg W l volumes st = Returned st' -> same_subject st.1 st'.1.
Proof.
  revert st. induction volumes as [|v volumes IH]; intros st H; simpl in H.
  - injection H as <-. apply same_subject_refl.
  - destruct (load_ledger W (JS.Num v)) as [body|]; [|discriminate H].
    apply IH in H. rewrite publaw_fold in H. simpl in H.
    eapply same_subject_trans; [apply same_subject_publaw_rows | exact H].
Qed.

Lemma get_from_usgpo_mods_same_subject (c c' : Citation) (url : option string)
    (n : list Citation) :
  get_from_usgpo_mods Reg W c url = Returned (c', n) -> same_subject c c'.
Proof.
  unfold get_from_usgpo_mods. destruct (thrown _); [discriminate|].
  intros [= <- _]. unfold scan_mods.
  rewrite (scan_title_only Reg _
             {| ms_cite := c; cites := []; seen_cites := ∅; thrown := None |} c)
    by (simpl; symmetry; apply set_title_title).
  apply same_subject_set_title.
Qed.

Lemma get_from_legisworks_publaw_same_subject (c c' : Citation)
    (n : list Citation) :
  get_from_legisworks_publaw Reg W c = Returned (c', n) -> same_subject c c'.
Proof.
  unfold get_from_legisworks_publaw. destruct (law c) as [l|]; [|discriminate].
  destruct (volume_map !! _) as [volumes|].
  - intros H. now apply publaw_volumes_same_subject in H.
  - destruct (bool_decide _); [discriminate|]. intros [= <- _].
    apply same_subject_refl.
Qed.

Lemma get_from_govtrack_search_same_subject (c c' : Citation) (lk : link_desc)
    (e : bool) (n : list Citation) :
  get_from_govtrack_search Reg W c lk e = Returned (c', n) -> same_subject c c'.
Proof.
  unfold get_from_govtrack_search.
  destruct (landing lk); [|discriminate].
  destruct (response _); [|discriminate].
  destruct (bill_url_match _);
    [|intros [= <- _]; apply same_subject_refl].
  destruct (body _); [|intros [= <- _]; apply same_subject_refl].
  destruct (JSON_parse_bill W _);
    [|intros [= <- _]; apply same_subject_refl].
  simpl. destruct (law c) as [l|] eqn:E; intros [= <- _];
    unfold same_subject; simpl; rewrite ?E; simpl; tauto.
Qed.

Lemma get_from_courtlistener_search_same_subject (c c' : Citation) (env : Env)
    (n : list Citation) :
  get_from_courtlistener_search W c env = Returned (c', n) -> same_subject c c'.
Proof.
  unfold get_from_courtlistener_search.
  destruct (reporter c) as [rep|] eqn:E; [|discriminate].
  destruct (Reporter.links rep !! "courtlistener") as [lk|];
    [|intros [= <- _]; apply same_subject_refl].
  destruct (courtlistener env); [|intros [= <- _]; apply same_subject_refl].
  destruct (landing lk); [|discriminate].
  destruct (search_cases W _) as [[|cs [|cs' rest]]|];
    intros [= <- _]; try apply same_subject_refl.
  unfold same_subject, adopt_case.
  destruct (case_citation cs); simpl; rewrite E; repeat split; eauto.
Qed.

Lemma fetchers_same_subject (k : string) (f : fetcher) (sub : sub_citation)
    (c c' : Citation) (env : Env) (n : list Citation) :
  (k, f) ∈ fetchers Reg W ->
  get_sub c k = Some sub ->
  f sub c env = Returned (c', n) ->
  same_subject c c'.
Proof.
  intros Hin Hsub. unfold fetchers in Hin.
  repeat (apply elem_of_cons in Hin as [[= -> ->] | Hin]);
    [..|now apply elem_of_nil in Hin]; unfold get_sub in Hsub; simpl in Hsub.
  - destruct (stat c) as [s|]; [|discriminate Hsub]. injection Hsub as <-.
    unfold fetch_stat, usgpo_or_nothing. destruct (_ !! "usgpo").
    + apply get_from_usgpo_mods_same_subject.
    + intros [= <- _]. apply same_subject_refl.
  - destruct (law c) as [l|]; [|discriminate Hsub]. injection Hsub as <-.
    unfold fetch_law. destruct (_ !! "usgpo").
    + apply get_from_usgpo_mods_same_subject.
    + destruct (_ && _); [apply get_from_legisworks_publaw_same_subject|].
      destruct (_ !! "govtrack") as [g|];
        [|intros [= <- _]; apply same_subject_refl].
      destruct (JS.truthy_str _);
        [apply get_from_govtrack_search_same_subject|].
      intros [= <- _]. apply same_subject_refl.
  - destruct (usc c) as [u|] eqn:E; [|discriminate Hsub]. injection Hsub as <-.
    unfold fetch_usc. destruct (house_html u);
      [|intros [= <- _]; apply same_subject_refl].
    destruct (response _); [|discriminate].
    destruct (bool_decide _); intros [= <- _]; [apply same_subject_refl|].
    unfold same_subject. simpl. rewrite E. repeat split; eauto.
  - destruct (cfr c) as [s|]; [|discriminate Hsub]. injection Hsub as <-.
    unfold fetch_cfr, usgpo_or_nothing. destruct (_ !! "usgpo").
    + apply get_from_usgpo_mods_same_subject.
    + intros [= <- _]. apply same_subject_refl.
  - destruct (fedreg c) as [s|]; [|discriminate Hsub]. injection Hsub as <-.
    unfold fetch_fedreg, usgpo_or_nothing. destruct (_ !! "usgpo").
    + apply get_from_usgpo_mods_same_subject.
    + intros [= <- _]. apply same_subject_refl.
  - unfold fetch_reporter. apply get_from_courtlistener_search_same_subject.
Qed.

Lemma forEachOf_same_subject (table : list (string * fetcher)) (c c' : Citation)
    (env : Env) (acc n : list Citation) :
  (forall k f, (k, f) ∈ table -> (k, f) ∈ fetchers Reg W) ->
  forEachOf table c env acc = Returned (c', n) ->
  same_subject c c'.
Proof.
  revert c acc. induction table as [|[k f] table IH]; intros c acc Hsub H;
    simpl in H.
  - injection H as <- _. apply same_subject_refl.
  - assert (Hrest : forall k' f', (k', f') ∈ table -> (k', f') ∈ fetchers Reg W)
      by (intros k' f' Hin; apply Hsub; now right).
    destruct (get_sub c k) as [sub|] eqn:E; [|now apply IH in H].
    destruct (f sub c env) as [[c1 n1]|] eqn:Ef; [|discriminate H].
    apply IH in H; [|exact Hrest].
    eapply same_subject_trans; [|exact H].
    eapply fetchers_same_subject; [apply Hsub; left | exact E | exact Ef].
Qed.

(** X10: a pass of [add_parallel_citations] that calls back leaves a
    citation about the same instrument: the type, the statute, regulation,
    federal-register and bill sub-citations, the disambiguation and the
    nested parallel citations are untouched, the law keeps its congress,
    type, number and identity, and no sub-citation appears or disappears. *)
Theorem add_parallel_citations_same_subject (cite cite' : Citation) (env : Env)
    (new : list Citation) :
  add_parallel_citations Reg W cite env = Returned (cite', new) ->
  same_subject cite cite'.
Proof.
  unfold add_parallel_citations. apply forEachOf_same_subject. auto.
Qed.

End Frame.

Lemma add_parallel_citations_same_subject_witness :
  same_subject Examples.cite_law_70
    (add_law_link "legisworks" (legisworks_link Examples.item_70_1 None)
       (set_title (Some "An Act") Examples.cite_law_70)).
Proof.
  apply (add_parallel_citations_same_subject Examples.registry Examples.world_70
           Examples.cite_law_70 _ Examples.env_none
           [ create_parallel_cite Examples.registry
               (StatFields (JS.Num 45) (JS.Num 1)) ]).
  vm_compute. reflexivity.
Defined.

(** ** The section-existence check *)

Section SectionCheck.

Variable Reg : Registry.

(** X11: for a citation whose only sub-citation is a US Code section, a pass
    that calls back returns no new citation and either leaves the citation
    as it was or deletes the links of the section; once they are deleted,
    every later pass, in any world, returns nothing and changes nothing. *)
Theorem usc_check_settles (W : World) (cite c1 : Citation) (env : Env)
    (n1 : list Citation) :
  stat cite = None -> law cite = None -> cfr cite = None ->
  fedreg cite = None -> reporter cite = None ->
  add_parallel_citations Reg W cite env = Returned (c1, n1) ->
  n1 = []
  /\ (c1 = cite
      \/ (c1 = set_usc (Some (Usc.Build_t None)) cite
          /\ forall W', add_parallel_citations Reg W' c1 env = Returned (c1, []))).
Proof.
  intros Hs Hl Hc Hf Hr.
  unfold add_parallel_citations, fetchers.
  cbn [forEachOf]. unfold get_sub. simpl. rewrite Hs, Hl. simpl.
  destruct (usc cite) as [u|] eqn:Eu; simpl.
  - unfold fetch_usc at 1. destruct (house_html u) as [url|].
    + destruct (response _) as [resp|]; [|discriminate].
      destruct (bool_decide _); simpl; rewrite ?Hc, ?Hf, ?Hr; simpl;
        intros [= <- <-]; split; auto.
      right. split; [reflexivity|]. intros W'.
      simpl. rewrite Hs, Hl, Hc, Hf, Hr. reflexivity.
    + simpl. rewrite Hc, Hf, Hr. simpl. intros [= <- <-]. auto.
  - rewrite Hc, Hf, Hr. simpl. intros [= <- <-]. auto.
Qed.

End SectionCheck.

Lemma usc_check_settles_witness :
  @nil Citation = []
  /\ (set_usc (Some (Usc.Build_t None)) Examples.cite_usc = Examples.cite_usc
      \/ (set_usc (Some (Usc.Build_t None)) Examples.cite_usc
          = set_usc (Some (Usc.Build_t None)) Examples.cite_usc
          /\ forall W',
               add_parallel_citations Examples.registry W'
                 (set_usc (Some (Usc.Build_t None)) Examples.cite_usc)
                 Examples.env_none
               = Returned (set_usc (Some (Usc.Build_t None)) Examples.cite_usc, []))).
Proof.
  apply (usc_check_settles Examples.registry Examples.not_found_world
           Examples.cite_usc _ Examples.env_none []); try reflexivity.
Defined.

(** ** The landing-page resolver *)

Section LandingPage.

Import JS JSFacts.

Variable Reg : Registry.
Variable W : World.

Lemma span_digits (ds rest : string) :
  digits_only ds ->
  starts_with digit_of rest = false ->
  span_while is_digit (ds +:+ rest) = (ds, rest).
Proof.
  intros Hd Hr. induction ds as [|c ds IH].
  - change ("" +:+ rest) with rest. destruct rest as [|c r]; [reflexivity|].
    cbn [span_while]. unfold is_digit. cbn [starts_with] in Hr.
    destruct (digit_of c); [discriminate Hr | reflexivity].
  - destruct Hd as [[d Hc] Hd].
    change (String c ds +:+ rest) with (String c (ds +:+ rest)).
    cbn [span_while]. unfold is_digit at 1. rewrite Hc, (IH Hd). reflexivity.
Qed.

Lemma append_empty_r (a : string) : a +:+ "" = a.
Proof.
  induction a as [|c a IH]; [reflexivity|].
  change (String c a +:+ "") with (String c (a +:+ "")). now rewrite IH.
Qed.

Lemma span_digits_all (ds : string) :
  digits_only ds -> span_while is_digit ds = (ds, "").
Proof.
  intros Hd. pose proof (span_digits ds "" Hd eq_refl) as H.
  now rewrite append_empty_r in H.
Qed.

Lemma span_lower (t rest : string) :
  lower_only t ->
  match rest with String c _ => is_lower_letter c = false | EmptyString => True end ->
  span_while is_lower_letter (t +:+ rest) = (t, rest).
Proof.
  intros Ht Hr. induction t as [|c t IH].
  - change ("" +:+ rest) with rest. destruct rest as [|c r]; [reflexivity|].
    cbn [span_while]. now rewrite Hr.
  - destruct Ht as [Hc Ht].
    change (String c t +:+ rest) with (String c (t +:+ rest)).
    cbn [span_while]. rewrite Hc, (IH Ht). reflexivity.
Qed.

Lemma digit_not_lower (c : ascii) :
  is_Some (digit_of c) -> is_lower_letter c = false.
Proof.
  destruct c as [[] [] [] [] [] [] [] []]; intros [d H]; try discriminate H;
    reflexivity.
Qed.

(** X12: the address of a bill page, made of a non-negative congress, a
    non-empty run of lower-case letters and a non-negative number, matches
    the pattern of the resolver, and the bill type it yields is that run of
    letters. *)
Theorem bill_url_match_bill_page (congress number : Z) (bill_type : string) :
  0 <= congress -> 0 <= number ->
  bill_type <> "" -> lower_only bill_type ->
  bill_url_match (bill_page congress bill_type number) = Some bill_type.
Proof.
  intros Hc Hn Hne Hlow. unfold bill_url_match, bill_page.
  destruct (to_string_nonneg congress Hc) as (c1 & s1 & E1 & D1 & _).
  destruct (to_string_nonneg number Hn) as (c2 & s2 & E2 & D2 & _).
  rewrite E1, E2.
  change (match_prefix "https://www.govtrack.us/congress/bills/"
            ("https://www.govtrack.us/congress/bills/" +:+ String c1 s1 +:+ "/"
             +:+ bill_type +:+ String c2 s2))
    with (Some (String c1 s1 +:+ "/" +:+ bill_type +:+ String c2 s2)).
  cbv beta iota.
  rewrite (span_digits (String c1 s1) ("/" +:+ bill_type +:+ String c2 s2) D1)
    by reflexivity.
  change ("/" +:+ bill_type +:+ String c2 s2)
    with (String "/" (bill_type +:+ String c2 s2)).
  cbv beta iota. change (Ascii.eqb "/" "/") with true. cbv beta iota.
  rewrite (span_lower bill_type (String c2 s2) Hlow)
    by (apply digit_not_lower; apply D2).
  rewrite (span_digits_all (String c2 s2) D2).
  destruct bill_type; [contradiction|reflexivity].
Qed.

(** X13: the landing-page resolver is all or nothing. When it calls back,
    either the citation is as it was and no citation is new, or the title
    has been replaced, the GovTrack link is gone from the law, and exactly
    one new citation comes back: a bill citation that carries the
    [is_enacted] flag and the bill type read from the address. *)
Theorem get_from_govtrack_search_all_or_nothing (cite cite' : Citation)
    (govtrack_link : link_desc) (is_enacted : bool) (new : list Citation)
    (l : Law.t) :
  law cite = Some l ->
  get_from_govtrack_search Reg W cite govtrack_link is_enacted
  = Returned (cite', new) ->
  (cite' = cite /\ new = [])
  \/ (exists b bill resp l',
        new = [b]
        /\ type b = "us_bill"
        /\ us_bill b = Some bill
        /\ Bill.is_enacted bill = is_enacted
        /\ (exists url,
              landing govtrack_link = Some url
              /\ response (request_get W
                             {| uri := url; followRedirect := true; auth := None |})
                 = Some resp)
        /\ bill_url_match (href resp) = Some (Bill.bill_type bill)
        /\ law cite' = Some l'
        /\ Law.links l' = delete "govtrack" (Law.links l)).
Proof.
  intros Hl. unfold get_from_govtrack_search.
  destruct (landing govtrack_link) as [url|]; [|discriminate]. simpl.
  destruct (response _) as [resp|] eqn:Er; [|discriminate].
  destruct (bill_url_match (href resp)) as [bt|] eqn:Em;
    [|intros [= <- <-]; auto].
  destruct (body _); [|intros [= <- <-]; auto].
  destruct (JSON_parse_bill W _) as [bill|]; [|intros [= <- <-]; auto].
  simpl. rewrite Hl. intros [= <- <-]. right.
  eexists _, _, resp, _. repeat split; eauto.
Qed.

End LandingPage.

Lemma bill_url_match_bill_page_witness :
  bill_url_match (bill_page 111 "hr" 1) = Some "hr".
Proof.
  apply (bill_url_match_bill_page 111 1 "hr"); try lia.
  - discriminate.
  - repeat split.
Defined.

Lemma get_from_govtrack_search_all_or_nothing_witness :
  let l := Law.Build_t (JS.Str "111") "public" (JS.Str "5")
             (Some "us-law/public/111/5")
             {[ "govtrack" := Examples.govtrack_link ]} in
  let cite' :=
    set_law
      (Some (Law.Build_t (JS.Str "111") "public" (JS.Str "5")
               (Some "us-law/public/111/5")
               (delete "govtrack" {[ "govtrack" := Examples.govtrack_link ]})))
      (set_title (Some "American Recovery and Reinvestment Act of 2009")
         Examples.cite_law_govtrack) in
  let new :=
    [ create_parallel_cite Examples.registry
        (BillFields true (JS.Num 111) "hr" (JS.Num 1)
           (Some "H.R. 1: American Recovery and Reinvestment Act of 2009")) ] in
  (cite' = Examples.cite_law_govtrack /\ new = [])
  \/ exists b bill resp l',
       new = [b]
       /\ type b = "us_bill"
       /\ us_bill b = Some bill
       /\ Bill.is_enacted bill = true
       /\ (exists url,
             landing Examples.govtrack_link = Some url
             /\ response (request_get Examples.govtrack_world
                            {| uri := url; followRedirect := true; auth := None |})
                = Some resp)
       /\ bill_url_match (href resp) = Some (Bill.bill_type bill)
       /\ law cite' = Some l'
       /\ Law.links l' = delete "govtrack" (Law.links l).
Proof.
  intros l cite' new.
  apply (get_from_govtrack_search_all_or_nothing Examples.registry
           Examples.govtrack_world Examples.cite_law_govtrack cite'
           Examples.govtrack_link true new l).
  - reflexivity.
  - vm_compute. reflexivity.
Defined.

(** ** Running the ledger cross-reference again *)

Section LedgerAgain.

Variable Reg : Registry.
Variable W : World.

Lemma publaw_update_twice (c : Citation) (a b : Item.t) :
  publaw_update (publaw_update c a) b = publaw_update c b.
Proof.
  unfold publaw_update, add_law_link. simpl.
  destruct (law c) as [l|] eqn:E; simpl; rewrite ?E; [|reflexivity].
  unfold set_law. simpl. now rewrite insert_insert_eq.
Qed.

Lemma publaw_rows_last (items : list Item.t) (z : Item.t) (c : Citation) :
  fold_left publaw_update (items ++ [z]) c = publaw_update c z.
Proof.
  revert c. induction items as [|a items IH]; intros c; [reflexivity|].
  simpl. rewrite IH. apply publaw_update_twice.
Qed.

Lemma publaw_rows_twice (items : list Item.t) (c : Citation) :
  fold_left publaw_update items (fold_left publaw_update items c)
  = fold_left publaw_update items c.
Proof.
  destruct items as [|z items _] using rev_ind; [reflexivity|].
  rewrite !publaw_rows_last. apply publaw_update_twice.
Qed.

Lemma publaw_rows_law (items : list Item.t) (c : Citation) (l : Law.t) :
  law c = Some l ->
  exists l', law (fold_left publaw_update items c) = Some l'
             /\ law_identity l' = law_identity l.
Proof.
  revert c l. induction items as [|a items IH]; intros c l Hl; [eauto|].
  simpl.
  destruct (IH (publaw_update c a)
              (Law.Build_t (Law.congress l) (Law.type l) (Law.number l) (Law.id l)
                 (<["legisworks" := legisworks_link a None]> (Law.links l))))
    as (l' & H1 & H2).
  - unfold publaw_update, add_law_link. simpl. now rewrite Hl.
  - exists l'. split; [exact H1 | exact H2].
Qed.

Lemma publaw_selected_identity (l l' : Law.t) (item : Item.t) :
  law_identity l' = law_identity l ->
  publaw_selected l' item = publaw_selected l item.
Proof.
  unfold law_identity, publaw_selected. intros [= -> -> -> _]. reflexivity.
Qed.

Lemma publaw_volumes_loaded (l : Law.t) (volumes : list Z)
    (st st' : Citation * list Citation) :
  publaw_volumes Reg W l volumes st = Returned st' ->
  exists bodies,
    Forall2 (fun v b => load_ledger W (JS.Num v) = Some b) volumes bodies.
Proof.
  revert st. induction volumes as [|v volumes IH]; intros st H.
  - exists []. constructor.
  - simpl in H. destruct (load_ledger W (JS.Num v)) as [body|] eqn:E;
      [|discriminate H].
    destruct (IH _ H) as (bodies & Hb). exists (body :: bodies).
    now constructor.
Qed.

(** X14: the ledger cross-reference is stable. When it calls back with a
    citation and a list of parallel citations, running it again on the
    citation it left gives that citation and that list again. *)
Theorem get_from_legisworks_publaw_again (cite c1 : Citation)
    (n1 : list Citation) :
  get_from_legisworks_publaw Reg W cite = Returned (c1, n1) ->
  get_from_legisworks_publaw Reg W c1 = Returned (c1, n1).
Proof.
  unfold get_from_legisworks_publaw.
  destruct (law cite) as [l|] eqn:El; [|discriminate].
  destruct (volume_map !! JS.value_to_string (Law.congress l))
    as [volumes|] eqn:Em.
  - intros H. destruct (publaw_volumes_loaded l volumes _ _ H) as (bodies & Hb).
    rewrite (publaw_volumes_scan Reg W l volumes bodies (cite, []) Hb) in H.
    injection H as <- <-.
    destruct (publaw_rows_law
                (filter (fun i => publaw_selected l i = true) (concat bodies))
                cite l El) as (l' & El' & Hid).
    rewrite El'.
    assert (Ec : Law.congress l' = Law.congress l)
      by (unfold law_identity in Hid; congruence).
    rewrite Ec, Em.
    rewrite (publaw_volumes_scan Reg W l' volumes bodies _ Hb). simpl.
    assert (Ef : filter (fun i => publaw_selected l' i = true) (concat bodies)
                 = filter (fun i => publaw_selected l i = true) (concat bodies)).
    { apply list_filter_iff. intros i.
      now rewrite (publaw_selected_identity l l' i Hid). }
    rewrite Ef, publaw_rows_twice. reflexivity.
  - destruct (bool_decide _) eqn:Ep; [discriminate|].
    intros [= <- <-]. now rewrite El, Em, Ep.
Qed.

End LedgerAgain.

Lemma get_from_legisworks_publaw_again_witness :
  get_from_legisworks_publaw Examples.registry Examples.world_70
    (add_law_link "legisworks" (legisworks_link Examples.item_70_1 None)
       (set_title (Some "An Act") Examples.cite_law_70))
  = Returned
      (add_law_link "legisworks" (legisworks_link Examples.item_70_1 None)
         (set_title (Some "An Act") Examples.cite_law_70),
       [ create_parallel_cite Examples.registry
           (StatFields (JS.Num 45) (JS.Num 1)) ]).
Proof.
  apply (get_from_legisworks_publaw_again Examples.registry Examples.world_70
           Examples.cite_law_70).
  vm_compute. reflexivity.
Defined.

(** ** Running the metadata-document resolver again *)

Section ModsAgain.

Variable Reg : Registry.
Variable W : World.

Lemma extension_law_retitle (t : option string) (ext : Mods.extension)
    (st : mods_state) :
  extension_law Reg ext (retitle t st) = retitle_flow t (extension_law Reg ext st).
Proof.
  unfold extension_law. change (thrown (retitle t st)) with (thrown st).
  destruct (thrown st); [reflexivity|].
  destruct (Mods.law ext) as [|[elem|] rest]; try reflexivity. simpl.
  destruct (JS.key_in _ _); reflexivity.
Qed.

Lemma extension_bill_retitle (t : option string) (ext : Mods.extension)
    (st : mods_state) :
  extension_bill Reg ext (retitle t st) = retitle_flow t (extension_bill Reg ext st).
Proof.
  unfold extension_bill. change (thrown (retitle t st)) with (thrown st).
  destruct (thrown st); [reflexivity|].
  destruct (Mods.bill ext) as [|[elem|] rest]; try reflexivity.
  destruct (bool_decide _); [|reflexivity].
  destruct (Mods.bill_type elem); [|reflexivity]. simpl.
  destruct (JS.key_in _ _); reflexivity.
Qed.

Lemma extension_title_retitle (t : option string) (ext : Mods.extension)
    (st : mods_state) :
  extension_title ext (retitle t st) = retitle t (extension_title ext st)
  \/ extension_title ext (retitle t st) = extension_title ext st.
Proof.
  unfold extension_title. change (thrown (retitle t st)) with (thrown st).
  destruct (thrown st); [auto|].
  destruct (Mods.shortTitle ext) as [|[v|[v|]] ?];
    [destruct (Mods.searchTitle ext)|..]; auto.
Qed.

Lemma process_extension_retitle (t : option string) (st : mods_state)
    (ext : Mods.extension) :
  process_extension Reg (retitle t st) ext = retitle t (process_extension Reg st ext)
  \/ process_extension Reg (retitle t st) ext = process_extension Reg st ext.
Proof.
  unfold process_extension.
  change (type (ms_cite (retitle t st))) with (type (ms_cite st)).
  destruct (bool_decide _ || bool_decide _);
    [|apply extension_title_retitle].
  rewrite extension_law_retitle.
  destruct (extension_law Reg ext st) as [st1|st1]; simpl; [|auto].
  rewrite extension_bill_retitle.
  destruct (extension_bill Reg ext st1) as [st2|st2]; simpl; [|auto].
  apply extension_title_retitle.
Qed.

Lemma scan_retitle (t : option string) (exts : list Mods.extension)
    (st : mods_state) :
  fold_left (process_extension Reg) exts (retitle t st)
  = retitle t (fold_left (process_extension Reg) exts st)
  \/ fold_left (process_extension Reg) exts (retitle t st)
     = fold_left (process_extension Reg) exts st.
Proof.
  revert st. induction exts as [|e exts IH]; intros st; [auto|].
  simpl. destruct (process_extension_retitle t st e) as [-> | ->]; auto.
Qed.

(** X15: the metadata-document resolver is stable. When it calls back with
    a citation and a list of new citations, running it again in the same
    world on the citation it left gives that citation and that list again. *)
Theorem get_from_usgpo_mods_again (cite c1 : Citation) (mods_url : option string)
    (n1 : list Citation) :
  get_from_usgpo_mods Reg W cite mods_url = Returned (c1, n1) ->
  get_from_usgpo_mods Reg W c1 mods_url = Returned (c1, n1).
Proof.
  unfold get_from_usgpo_mods.
  set (exts := fetch_extensions W mods_url). unfold scan_mods.
  set (init := {| ms_cite := cite; cites := []; seen_cites := ∅;
                  thrown := None |}).
  destruct (thrown (fold_left (process_extension Reg) exts init)) eqn:Eth;
    [discriminate|].
  intros [= Hc Hn].
  assert (Et : set_title (title c1) cite = c1).
  { rewrite <- Hc at 2. symmetry. rewrite <- Hc at 1.
    apply scan_title_only. simpl. symmetry. apply set_title_title. }
  set (again := {| ms_cite := c1; cites := []; seen_cites := ∅;
                   thrown := None |}).
  assert (Ea : again = retitle (title c1) init)
    by (unfold again, retitle; simpl; now rewrite Et).
  rewrite Ea.
  destruct (scan_retitle (title c1) exts init) as [-> | ->].
  - simpl. rewrite Eth, Hc, Hn, set_title_title. reflexivity.
  - now rewrite Eth, Hc, Hn.
Qed.

End ModsAgain.

Lemma get_from_usgpo_mods_again_witness :
  get_from_usgpo_mods Examples.registry Examples.mods_world
    (set_title (Some "Recovery Act") Examples.cite_123_115)
    (Some Examples.mods_url)
  = Returned
      (set_title (Some "Recovery Act") Examples.cite_123_115,
       [ create_parallel_cite Examples.registry
           (LawFields (JS.Num 111) "public" (JS.Num 5)) ]).
Proof.
  apply (get_from_usgpo_mods_again Examples.registry Examples.mods_world
           Examples.cite_123_115).
  reflexivity.
Defined.

(** ** Nesting of candidates, and queries that are not canonical *)

Section CandidateEdges.

Import JS JSFacts.

Variable Reg : Registry.
Variable W : World.

Lemma candidate_nests (s : Stat.t) (n : nat) (item : Item.t) :
  nests_at_most_law (candidate Reg s n item) item.
Proof.
  unfold nests_at_most_law, names_public_law, candidate.
  destruct (Item.congress item) as [c|]; simpl.
  - destruct (Z.leb_spec 38 c) as [Hc|Hc]; simpl.
    + destruct (decide (Item.type item = Some "publaw")) as [Ht|Ht].
      * rewrite (bool_decide_eq_true_2 _ Ht). simpl. split.
        -- split; [intros _; split; [eauto | exact Ht] | eauto].
        -- intros ccs cc [= <-] Hin. apply list_elem_of_singleton in Hin as ->.
           auto.
      * rewrite (bool_decide_eq_false_2 _ Ht).
        destruct (1 <? n)%nat; simpl;
          (split; [split; [intros [x H]; discriminate H | intros [_ H]; contradiction]
                  | intros ccs cc H; discriminate H]).
    + destruct (1 <? n)%nat; simpl;
        (split; [split; [intros [x H]; discriminate H
                        | intros [(c' & [= <-] & H) _]; lia]
                | intros ccs cc H; discriminate H]).
  - destruct (1 <? n)%nat; simpl;
      (split; [split; [intros [x H]; discriminate H
                      | intros [(c' & H & _) _]; discriminate H]
              | intros ccs cc H; discriminate H]).
Qed.

(** X16: a candidate that [explode] returns has a nested citation exactly
    when its ledger row names a public law of the 38th Congress or later;
    the nested list then holds one law citation, and nothing is nested in
    that one. *)
Theorem explode_nesting (cite : Citation) (s : Stat.t) (env : Env)
    (body : list Item.t) :
  stat cite = Some s ->
  num_le (value_to_number (Stat.volume s)) (Some 64) = true ->
  load_ledger W (Stat.volume s) = Some body ->
  exists result,
    explode Reg W cite env = Returned result
    /\ Forall2 nests_at_most_law result
         (rev (filter (fun i => selected s i = true) body)).
Proof.
  intros Hs Hv Hl.
  rewrite (explode_ledger Reg W cite s env body Hs Hv Hl), <- map_rev.
  eexists. split; [reflexivity|].
  generalize (length (filter (fun i => selected s i = true) body)). intros n.
  induction (rev (filter (fun i => selected s i = true) body)) as [|a l IH];
    simpl; constructor; [apply candidate_nests | exact IH].
Qed.

(** X17: the start-page test compares texts. When the page of the query is
    a text that is not the decimal text of any integer, such as a number
    written with a leading zero, no row is selected for starting on that
    page: a row of the queried volume is selected exactly when it has
    [npages] and its span holds the page that [parseInt] reads. *)
Theorem selected_by_span_only (s : Stat.t) (item : Item.t) (volume : Z)
    (text : string) :
  represents (Stat.volume s) volume ->
  Stat.page s = Str text ->
  (forall z, to_string z <> text) ->
  selected s item = true <->
  Item.volume item = volume
  /\ exists npages page,
       Item.npages item = Some npages
       /\ parseInt text = Some page
       /\ Item.page item <= page < Item.page item + npages.
Proof.
  intros Hv Hp Hno. unfold selected, is_start_page, spans_page.
  pose proof (loose_eq_represents _ _ (Item.volume item) Hv) as Ev.
  rewrite Hp. simpl.
  rewrite (bool_decide_eq_false_2 _ (Hno (Item.page item))). simpl.
  destruct (str_loose_eq (to_string (Item.volume item)) (Stat.volume s)); simpl.
  - destruct (Item.npages item) as [n|].
    + destruct (parseInt text) as [q|]; unfold num_ge, num_le, num_lt.
      * destruct (Z.eqb_spec n 0) as [->|Hn]; simpl.
        -- split; [discriminate|]. intros (_ & n' & q' & [= <-] & [= <-] & Hspan). lia.
        -- destruct (Z.leb_spec (Item.page item) q) as [Hlo|Hlo]; simpl.
           ++ destruct (Z.ltb_spec q (Item.page item + n)) as [Hhi|Hhi]; simpl.
              ** split; [intros _ | reflexivity].
                 split; [now apply Ev|]. exists n, q. auto.
              ** split; [discriminate|].
                 intros (_ & n' & q' & [= <-] & [= <-] & Hspan). lia.
           ++ split; [discriminate|].
              intros (_ & n' & q' & [= <-] & [= <-] & Hspan). lia.
      * rewrite andb_false_r. simpl.
        split; [discriminate|]. intros (_ & n' & q' & _ & Hq & _). discriminate Hq.
    + split; [discriminate|]. intros (_ & n' & q' & Hq & _). discriminate Hq.
  - split; [discriminate|]. intros [Hq _]. apply Ev in Hq. discriminate Hq.
Qed.

End CandidateEdges.

Lemma explode_nesting_witness :
  exists result,
    explode Examples.registry Examples.world_43_two Examples.cite_43_25
      Examples.env_none = Returned result
    /\ Forall2 nests_at_most_law result
         (rev (filter (fun i => selected Examples.stat_43_25 i = true)
                 [Examples.item_long; Examples.item_inner])).
Proof.
  apply (explode_nesting Examples.registry Examples.world_43_two
           Examples.cite_43_25 Examples.stat_43_25 Examples.env_none
           [Examples.item_long; Examples.item_inner]); reflexivity.
Defined.

Lemma selected_by_span_only_witness :
  selected (Stat.Build_t (JS.Str "43") (JS.Str "01") None ∅) Examples.item_43_1
  = true <->
  Item.volume Examples.item_43_1 = 43
  /\ exists npages page,
       Item.npages Examples.item_43_1 = Some npages
       /\ JS.parseInt "01" = Some page
       /\ Item.page Examples.item_43_1 <= page
          < Item.page Examples.item_43_1 + npages.
Proof.
  apply (selected_by_span_only
           (Stat.Build_t (JS.Str "43") (JS.Str "01") None ∅)
           Examples.item_43_1 43 "01").
  - right. reflexivity.
  - reflexivity.
  - intros z H. pose proof (JSFacts.parseInt_to_string z) as P.
    rewrite H in P. injection P as <-. discriminate H.
Defined.
